(** * rasterio.mask: masking a raster with vector shapes

    A shallow embedding of [rasterio/mask.py] ([raster_geom_mask] and
    [mask]) together with the properties of its specification.

    The module consumes four capabilities that live outside the file:
    [rasterio.features.geometry_window], [rasterio.features.geometry_mask],
    and the dataset methods [window_transform] and [read].  They are taken
    as the fields of the class [Collaborators]; every call to one of them,
    and every warning, is recorded in a trace so that the order and the
    arguments of the interactions can be stated.

    The numpy operations of the module are written out.  Pixel arrays have
    an integer dtype; [filled] converts the nodata value to that dtype as
    numpy 2 does (an out-of-range integer is a [TypeError], a float is cut
    to its integer part), and only the conversion of a float that does
    not fit, which numpy leaves to the platform, is a field of the
    class. *)

From Stdlib Require Import QArith Qminmax Qround Qabs.
From stdpp Require Import base option list strings.

(** ** Data model *)

(** The numpy dtypes of integer rasters, with the range of values each can
    hold.  Rasters of floating-point samples are outside the embedding. *)
Inductive dtype : Type := uint8 | uint16 | int16 | uint32 | int32.

Definition dtype_min (d : dtype) : Z :=
  match d with
  | uint8 | uint16 | uint32 => 0
  | int16 => -32768
  | int32 => -2147483648
  end.

Definition dtype_max (d : dtype) : Z :=
  match d with
  | uint8 => 255
  | uint16 => 65535
  | int16 => 32767
  | uint32 => 4294967295
  | int32 => 2147483647
  end.

Definition in_range (d : dtype) (z : Z) : bool :=
  ((dtype_min d <=? z) && (z <=? dtype_max d))%Z.

(** A Python number given as a nodata value: an [int] or a [float].
    Floats are idealised as rationals (no NaN, no infinity). *)
Inductive scalar : Type :=
| PyInt (z : Z)
| PyFloat (q : Q).

(** [int(q)]: the integer part of a float, rounding towards zero. *)
Definition Qtruncate (q : Q) : Z := Z.quot (Qnum q) (Z.pos (Qden q)).

(** [affine.Affine]: the six coefficients of the pixel-to-world mapping.
    Coefficients are idealised as rationals. *)
Module Affine.
Record t : Type := mk { a : Q; b : Q; c : Q; d : Q; e : Q; f : Q }.
End Affine.

(** [rasterio.windows.Window]: offsets and lengths on the pixel grid. *)
Module Window.
Record t : Type := mk { col_off : nat; row_off : nat; width : nat; height : nat }.

(** Modelled from the spec: [Window.flatten] is declared outside this file;
    the degenerate window has offset 0 and length 0 in both dimensions, so
    the method is taken to list the two offsets and the two lengths. *)
Definition flatten (w : t) : nat * nat * nat * nat :=
  (col_off w, row_off w, width w, height w).
End Window.

(** The read-only attributes of the dataset object that [mask.py] uses. *)
Module Raster.
Record t : Type := mk {
  height : nat;
  width : nat;
  count : nat;
  nodata : option scalar;
  transform : Affine.t }.

(** Modelled from the spec: the [shape] property is declared outside this
    file; the no-overlap mask is "sized to the full raster", so
    [raster.shape[-2:]] is (height, width). *)
Definition shape (r : t) : nat * nat := (height r, width r).
End Raster.

(** A shape is a polygon: a list of rings of world coordinates. *)
Definition Shape : Type := list (list (Q * Q)).
Definition Shapes : Type := list Shape.

(** A two-dimensional numpy array of dtype bool. *)
Record BoolGrid : Type := mkGrid {
  grid_shape : nat * nat;
  grid_rows : list (list bool) }.

(** A three-dimensional (band, row, column) array of integer samples of
    one dtype, and the same with a parallel exclusion mask
    ([numpy.ma.MaskedArray]). *)
Record Array3 : Type := mkArray3 {
  arr_shape : nat * nat * nat;
  arr_dtype : dtype;
  arr_data : list (list (list Z)) }.

Record MaskedArray : Type := mkMasked {
  ma_shape : nat * nat * nat;
  ma_dtype : dtype;
  ma_data : list (list (list Z));
  ma_mask : list (list (list bool)) }.

(** What [mask] returns as its first component: a plain array when
    [filled] is true, a masked array otherwise. *)
Inductive Image : Type :=
| Plain (data : Array3)
| Masked (data : MaskedArray).

(** ** Exceptions, traces and the monad of a call *)

(** [FillTypeError v d] is numpy's
    [TypeError("Cannot convert fill_value v to dtype d")]. *)
Inductive exn : Type :=
| ValueError (msg : string)
| FillTypeError (fill_value : scalar) (d : dtype)
| ExternalError (cls msg : string).

Inductive result (A : Type) : Type :=
| Ok (x : A)
| Raise (err : exn).
Arguments Ok {A} x.
Arguments Raise {A} err.

Inductive event : Type :=
| GeometryWindowCall (raster : Raster.t) (shapes : Shapes) (north_up : bool)
    (pad_x pad_y : Q) (ret : result Window.t)
| Warning (msg : string)
| WindowTransformCall (raster : Raster.t) (window : Window.t)
    (ret : result Affine.t)
| GeometryMaskCall (shapes : Shapes) (transform : Affine.t) (invert : bool)
    (out_shape : nat * nat) (all_touched : bool) (ret : result BoolGrid)
| ReadCall (raster : Raster.t) (window : option Window.t)
    (out_shape : nat * nat * nat) (masked : bool) (ret : result MaskedArray).

(** A computation yields the events it produced, in order, and either a
    value or the exception that ended it. *)
Definition M (A : Type) : Type := list event * result A.

Definition trace {A} (m : M A) : list event := fst m.
Definition outcome {A} (m : M A) : result A := snd m.

#[global] Instance M_ret : MRet M := λ A x, ([], Ok x).
#[global] Instance M_bind : MBind M := λ A B k m,
  match m with
  | (t, Ok x) => let '(t', r) := k x in (t ++ t', r)
  | (t, Raise err) => (t, Raise err)
  end.

Definition raise {A} (err : exn) : M A := ([], Raise err).
Definition warn (msg : string) : M unit := ([Warning msg], Ok tt).
Definition lift {A} (r : result A) : M A := ([], r).

(** ** The external collaborators *)

Class Collaborators : Type := {
  geometry_window :
    Raster.t → Shapes → bool → Q → Q → result Window.t;
  geometry_mask :
    Shapes → Affine.t → bool → nat * nat → bool → result BoolGrid;
  window_transform :
    Raster.t → Window.t → result Affine.t;
  read :
    Raster.t → option Window.t → nat * nat * nat → bool → result MaskedArray;
  (** numpy's conversion, to an integer dtype, of a float fill value whose
      integer part does not fit the dtype; it is decided by the C
      conversion of the platform (an [OverflowError], reported as a
      [TypeError], or a wrapped value). *)
  convert_overflowing : dtype → Q → result Z }.

Section Calls.
Context {env : Collaborators}.

Definition call_geometry_window raster shapes north_up pad_x pad_y
  : M Window.t :=
  let ret := geometry_window raster shapes north_up pad_x pad_y in
  ([GeometryWindowCall raster shapes north_up pad_x pad_y ret], ret).

Definition call_window_transform raster window : M Affine.t :=
  let ret := window_transform raster window in
  ([WindowTransformCall raster window ret], ret).

Definition call_geometry_mask shapes transform invert out_shape all_touched
  : M BoolGrid :=
  let ret := geometry_mask shapes transform invert out_shape all_touched in
  ([GeometryMaskCall shapes transform invert out_shape all_touched ret], ret).

Definition call_read raster window out_shape masked : M MaskedArray :=
  let ret := read raster window out_shape masked in
  ([ReadCall raster window out_shape masked ret], ret).

End Calls.

(** ** numpy operations used by the module *)

(** [np.ones(shape=..., dtype='bool')] *)
Definition np_ones (shape : nat * nat) : BoolGrid :=
  {| grid_shape := shape;
     grid_rows := replicate (fst shape) (replicate (snd shape) true) |}.

(** [grid * flag] on a bool array and a Python bool. *)
Definition grid_mul (g : BoolGrid) (flag : bool) : BoolGrid :=
  {| grid_shape := grid_shape g;
     grid_rows := (λ row : list bool, (λ x, x && flag) <$> row) <$> grid_rows g |}.

(** [m3 | g]: a (band, row, col) mask or-ed with a (row, col) grid that is
    broadcast across the bands.  The operands must agree on (row, col);
    numpy's stretching of length-1 axes is not modelled. *)
Definition broadcast_or (m3 : list (list (list bool)))
    (rows : list (list bool)) : list (list (list bool)) :=
  (λ band, zip_with (zip_with orb) band rows) <$> m3.

Definition mask_or (shape3 : nat * nat * nat) (m3 : list (list (list bool)))
    (g : BoolGrid) : result (list (list (list bool))) :=
  if decide ((shape3.1.2, shape3.2) = grid_shape g)
  then Ok (broadcast_or m3 (grid_rows g))
  else Raise (ValueError "operands could not be broadcast together"%string).

(** [out_image.mask = m] *)
Definition set_mask (img : MaskedArray) (m : list (list (list bool)))
  : MaskedArray :=
  {| ma_shape := ma_shape img; ma_dtype := ma_dtype img;
     ma_data := ma_data img; ma_mask := m |}.

(** [np.copyto(result, v, where=mask)] on a copy of the data, for a fill
    value [v] that already has the dtype of the array. *)
Definition fill_where (img : MaskedArray) (v : Z) : Array3 :=
  {| arr_shape := ma_shape img;
     arr_dtype := ma_dtype img;
     arr_data :=
       zip_with (zip_with (zip_with (λ x (m : bool), if m then v else x)))
         (ma_data img) (ma_mask img) |}.

Section Filled.
Context {env : Collaborators}.

(** [numpy.ma.core._check_fill_value(fill_value, ndtype)] for an integer
    dtype: [np.array(fill_value, dtype=ndtype)], whose failure is reported
    as a [TypeError].  A Python int must lie in the range of the dtype; a
    Python float is cut to its integer part. *)
Definition check_fill_value (fill_value : scalar) (d : dtype) : result Z :=
  match fill_value with
  | PyInt z =>
      if in_range d z then Ok z else Raise (FillTypeError fill_value d)
  | PyFloat q =>
      if in_range d (Qtruncate q) then Ok (Qtruncate q)
      else convert_overflowing d q
  end.

(** [out_image.filled(fill_value)] on an array whose mask has been set:
    the fill value is converted to the dtype of the array first, then
    written at the masked positions of a copy of the data. *)
Definition ma_filled (img : MaskedArray) (fill_value : scalar)
  : result Array3 :=
  match check_fill_value fill_value (ma_dtype img) with
  | Ok v => Ok (fill_where img v)
  | Raise err => Raise err
  end.

End Filled.

(** Element access, [None] out of range. *)
Definition at2 {A} (l : list (list A)) (i j : nat) : option A :=
  match l !! i with
  | Some row => row !! j
  | None => None
  end.
Definition at3 {A} (l : list (list (list A))) (k i j : nat) : option A :=
  match l !! k with
  | Some band => at2 band i j
  | None => None
  end.

(** The nested lists of an array have the lengths its shape announces. *)
Definition well_shaped2 {A} (shape : nat * nat) (l : list (list A)) : bool :=
  bool_decide (length l = shape.1)
  && forallb (λ row, bool_decide (length row = shape.2)) l.
Definition well_shaped3 {A} (shape : nat * nat * nat)
    (l : list (list (list A))) : bool :=
  bool_decide (length l = shape.1.1)
  && forallb (well_shaped2 (shape.1.2, shape.2)) l.

(** ** The module *)

Section Mask.
Context {env : Collaborators}.

Definition config_error : exn :=
  ValueError "crop and invert cannot both be True."%string.
Definition overlap_error : exn :=
  ValueError "Input shapes do not overlap raster."%string.
Definition overlap_warning : string :=
  "shapes are outside bounds of raster. Are they in different coordinate reference systems?"%string.

(** [raster_geom_mask(raster, shapes, all_touched, invert, crop, pad)] *)
Definition raster_geom_mask (raster : Raster.t) (shapes : Shapes)
    (all_touched invert crop pad : bool)
  : M (BoolGrid * Affine.t * option Window.t) :=
  if crop && invert then raise config_error else
  let '(pad_x, pad_y) :=
    if crop && pad then ((1 # 2)%Q, (1 # 2)%Q) else (0%Q, 0%Q) in
  let north_up := Qle_bool (Affine.e (Raster.transform raster)) 0 in
  window ← call_geometry_window raster shapes north_up pad_x pad_y;
  if decide (Window.flatten window = (0, 0, 0, 0)) then
    (if crop then raise overlap_error else warn overlap_warning);;
    let mask := grid_mul (np_ones (Raster.shape raster)) (negb invert) in
    mret (mask, Raster.transform raster, None)
  else
    '(window, transform, out_shape) ←
      (if crop then
         transform ← call_window_transform raster window;
         mret (Some window, transform,
               (Window.height window, Window.width window))
       else
         mret (None, Raster.transform raster,
               (Raster.height raster, Raster.width raster)));
    mask ← call_geometry_mask shapes transform invert out_shape all_touched;
    mret (mask, transform, window).

(** Lines 163-167 of [mask]: the nodata value used for filling. *)
Definition effective_nodata (nodata : option scalar) (raster : Raster.t)
  : scalar :=
  match nodata with
  | Some v => v
  | None =>
      match Raster.nodata raster with
      | Some v => v
      | None => PyInt 0
      end
  end.

(** [mask(raster, shapes, all_touched, invert, nodata, filled, crop, pad)] *)
Definition mask (raster : Raster.t) (shapes : Shapes)
    (all_touched invert : bool) (nodata : option scalar)
    (filled crop pad : bool)
  : M (Image * Affine.t) :=
  let nodata := effective_nodata nodata raster in
  '(shape_mask, transform, window) ←
    raster_geom_mask raster shapes all_touched invert crop pad;
  let '(height, width) := grid_shape shape_mask in
  let out_shape := (Raster.count raster, height, width) in
  out_image ← call_read raster window out_shape true;
  new_mask ← lift (mask_or (ma_shape out_image) (ma_mask out_image) shape_mask);
  let out_image := set_mask out_image new_mask in
  if filled then
    out_image ← lift (ma_filled out_image nodata);
    mret (Plain out_image, transform)
  else mret (Masked out_image, transform).

End Mask.

(** ** Observing a trace *)

(** The window that the geometry-window computation returned during a call,
    if the call got as far as asking for it. *)
Fixpoint computed_window (t : list event) : option Window.t :=
  match t with
  | [] => None
  | GeometryWindowCall _ _ _ _ _ (Ok w) :: _ => Some w
  | _ :: t' => computed_window t'
  end.

(** The (pad_x, pad_y) of every request made to the geometry-window
    computation, in order. *)
Fixpoint window_paddings (t : list event) : list (Q * Q) :=
  match t with
  | [] => []
  | GeometryWindowCall _ _ _ pad_x pad_y _ :: t' =>
      (pad_x, pad_y) :: window_paddings t'
  | _ :: t' => window_paddings t'
  end.

(** The "no overlap" sentinel. *)
Definition degenerate (w : Window.t) : Prop :=
  Window.flatten w = (0, 0, 0, 0).

#[global] Instance degenerate_dec w : Decision (degenerate w).
Proof. unfold degenerate. apply _. Defined.

(** A grid in which every cell holds [v]. *)
Definition constant_grid (shape : nat * nat) (v : bool) : BoolGrid :=
  {| grid_shape := shape;
     grid_rows := replicate (fst shape) (replicate (snd shape) v) |}.

(** The two quantities [raster_geom_mask] derives before it asks for the
    window: the orientation flag (line 75) and the padding (lines 68-73). *)
Definition north_up (r : Raster.t) : bool :=
  Qle_bool (Affine.e (Raster.transform r)) 0.

Definition padding (crop pad : bool) : Q :=
  (if crop && pad then 1 # 2 else 0)%Q.

(** Pixel (k, i, j) of an output is excluded: flagged in the overlay of a
    masked array, or holding the fill value (the nodata value as converted
    to the dtype of the array) in a plain array. *)
Definition excluded_in {env : Collaborators} (nodata : scalar) (out : Image)
    (k i j : nat) : Prop :=
  match out with
  | Masked ma => at3 (ma_mask ma) k i j = Some true
  | Plain arr =>
      ∃ v, check_fill_value nodata (arr_dtype arr) = Ok v ∧
           at3 (arr_data arr) k i j = Some v
  end.

(** ** What is expected of the collaborators *)

Definition valid_grid (g : BoolGrid) : bool :=
  well_shaped2 (grid_shape g) (grid_rows g).

Definition valid_masked (img : MaskedArray) : bool :=
  well_shaped3 (ma_shape img) (ma_data img)
  && well_shaped3 (ma_shape img) (ma_mask img).

(** The rasterizer returns a grid of the shape it was asked for. *)
Definition rasterizer_honours_shape (env : Collaborators) : Prop :=
  ∀ shapes t invert out_shape all_touched g,
    geometry_mask shapes t invert out_shape all_touched = Ok g →
    grid_shape g = out_shape ∧ valid_grid g = true.

(** A read returns an array of the shape it was asked for. *)
Definition read_honours_shape (env : Collaborators) : Prop :=
  ∀ r window out_shape masked img,
    read r window out_shape masked = Ok img →
    ma_shape img = out_shape ∧ valid_masked img = true.

(** Two worlds answer every request alike. *)
Definition same_answers (env1 env2 : Collaborators) : Prop :=
  (∀ r shapes nu px py,
     @geometry_window env1 r shapes nu px py
     = @geometry_window env2 r shapes nu px py) ∧
  (∀ shapes t invert sh touched,
     @geometry_mask env1 shapes t invert sh touched
     = @geometry_mask env2 shapes t invert sh touched) ∧
  (∀ r w, @window_transform env1 r w = @window_transform env2 r w) ∧
  (∀ r w sh masked, @read env1 r w sh masked = @read env2 r w sh masked) ∧
  (∀ d q, @convert_overflowing env1 d q = @convert_overflowing env2 d q).

(** The world [env] with another geometry-window computation. *)
Definition with_geometry_window (env : Collaborators)
    (gw : Raster.t → Shapes → bool → Q → Q → result Window.t)
  : Collaborators :=
  {| geometry_window := gw;
     geometry_mask := @geometry_mask env;
     window_transform := @window_transform env;
     read := @read env;
     convert_overflowing := @convert_overflowing env |}.

(** What lines 179-182 of [mask] make of the masked array [out]: the
    filled array, or the exception of the fill, when [filled] is set, the
    masked array itself otherwise. *)
Definition packaged {env : Collaborators} (filled : bool) (out : MaskedArray)
    (fill_value : scalar) (tr : Affine.t) : result (Image * Affine.t) :=
  if filled then
    match ma_filled out fill_value with
    | Ok arr => Ok (Plain arr, tr)
    | Raise err => Raise err
    end
  else Ok (Masked out, tr).


(** The wording of the specification for the padding, to be compared with
    [padding]: "half a pixel width in world units" on each axis, for an
    axis-aligned raster whose pixel is |a| wide and |e| high. *)
Definition half_pixel_world_units (r : Raster.t) : Q * Q :=
  (Qabs (Affine.a (Raster.transform r)) * (1 # 2),
   Qabs (Affine.e (Raster.transform r)) * (1 # 2))%Q.

(** ** A reference world

    A small, executable instance of the collaborators, used to run the
    module on concrete inputs.  It is not part of [mask.py]: windows and
    masks are computed from the bounding boxes of the shapes, for
    axis-aligned rasters, and the dataset serves synthetic samples. *)
Module Sample.

Definition bounds (pts : list (Q * Q)) : option (Q * Q * Q * Q) :=
  match pts with
  | [] => None
  | (x, y) :: rest =>
      Some (foldr Qmin x rest.*1, foldr Qmin y rest.*2,
            foldr Qmax x rest.*1, foldr Qmax y rest.*2)
  end.

Definition clamp (hi : nat) (x : Z) : Z := Z.max 0 (Z.min (Z.of_nat hi) x).

Definition zero_window : Window.t := Window.mk 0 0 0 0.

Definition bbox_window (r : Raster.t) (shapes : Shapes) (north_up : bool)
    (pad_x pad_y : Q) : result Window.t :=
  let t := Raster.transform r in
  match bounds (concat (concat shapes)) with
  | None => Ok zero_window
  | Some (x_min, y_min, x_max, y_max) =>
      let px := Qabs (pad_x * Affine.a t) in
      let py := Qabs (pad_y * Affine.e t) in
      let col x := ((x - Affine.c t) / Affine.a t)%Q in
      let row y := ((y - Affine.f t) / Affine.e t)%Q in
      let '(first, last) :=
        if north_up then (y_max + py, y_min - py)%Q
        else (y_min - py, y_max + py)%Q in
      let c0 := clamp (Raster.width r) (Qfloor (col (x_min - px)%Q)) in
      let c1 := clamp (Raster.width r) (Qceiling (col (x_max + px)%Q)) in
      let r0 := clamp (Raster.height r) (Qfloor (row first)) in
      let r1 := clamp (Raster.height r) (Qceiling (row last)) in
      if ((c0 <? c1) && (r0 <? r1))%Z
      then Ok (Window.mk (Z.to_nat c0) (Z.to_nat r0)
                 (Z.to_nat (c1 - c0)) (Z.to_nat (r1 - r0)))
      else Ok zero_window
  end.

(** Is the centre of pixel (i, j) inside the bounding box of the shape?
    (Only pixel centres are tested, so [all_touched] makes no difference
    to [bbox_mask].) *)
Definition covers (t : Affine.t) (i j : nat) (s : Shape) : bool :=
  match bounds (concat s) with
  | None => false
  | Some (x_min, y_min, x_max, y_max) =>
      let x := (Affine.c t + Affine.a t * (inject_Z (Z.of_nat j) + (1 # 2)))%Q in
      let y := (Affine.f t + Affine.e t * (inject_Z (Z.of_nat i) + (1 # 2)))%Q in
      Qle_bool x_min x && Qle_bool x x_max
      && Qle_bool y_min y && Qle_bool y y_max
  end.

Definition bbox_mask (shapes : Shapes) (t : Affine.t) (invert : bool)
    (out_shape : nat * nat) (all_touched : bool) : result BoolGrid :=
  let cell i j :=
    let inside := existsb (covers t i j) shapes in
    if invert then inside else negb inside in
  Ok {| grid_shape := out_shape;
        grid_rows :=
          (λ i, cell i <$> seq 0 out_shape.2) <$> seq 0 out_shape.1 |}.

Definition offset_transform (r : Raster.t) (w : Window.t) : result Affine.t :=
  let t := Raster.transform r in
  let col := inject_Z (Z.of_nat (Window.col_off w)) in
  let row := inject_Z (Z.of_nat (Window.row_off w)) in
  Ok (Affine.mk (Affine.a t) (Affine.b t)
        (Qred (Affine.c t + Affine.a t * col + Affine.b t * row))
        (Affine.d t) (Affine.e t)
        (Qred (Affine.f t + Affine.d t * col + Affine.e t * row))).

(** The sample stored at band [k], row [i], column [j] of the dataset. *)
Definition sample (k i j : nat) : Z := Z.of_nat (100 * (k + 1) + 10 * i + j).

Definition read_samples (r : Raster.t) (window : option Window.t)
    (out_shape : nat * nat * nat) (masked : bool) : result MaskedArray :=
  let w := default (Window.mk 0 0 (Raster.width r) (Raster.height r)) window in
  if decide (out_shape = (Raster.count r, Window.height w, Window.width w))
  then
    let pixel k i j := sample k (Window.row_off w + i) (Window.col_off w + j) in
    let data :=
      (λ k, (λ i, pixel k i <$> seq 0 (Window.width w))
              <$> seq 0 (Window.height w)) <$> seq 0 (Raster.count r) in
    let invalid (v : Z) :=
      masked &&
      match Raster.nodata r with
      | Some (PyInt z) => bool_decide (v = z)
      | Some (PyFloat q) => Qeq_bool (inject_Z v) q
      | None => false
      end in
    Ok {| ma_shape := out_shape;
          ma_dtype := uint8;
          ma_data := data;
          ma_mask :=
            (λ band : list (list Z),
               (λ row : list Z, invalid <$> row) <$> band) <$> data |}
  else Raise (ExternalError "NotImplementedError" "resampled read").

(** A float that does not fit is refused, as on a platform whose C
    conversion reports the overflow. *)
Definition refuse_overflowing (d : dtype) (q : Q) : result Z :=
  Raise (FillTypeError (PyFloat q) d).

Definition world : Collaborators :=
  {| geometry_window := bbox_window;
     geometry_mask := bbox_mask;
     window_transform := offset_transform;
     read := read_samples;
     convert_overflowing := refuse_overflowing |}.

(** A 4 x 4 north-up raster of two uint8 bands with 10-unit pixels whose
    top-left corner is at (0, 40); sample 112 (band 0, row 1, column 2) is
    nodata. *)
Definition raster : Raster.t :=
  Raster.mk 4 4 2 (Some (PyFloat 112)) (Affine.mk 10 0 0 0 (-10) 40).

Definition square (x0 y0 x1 y1 : Q) : Shape :=
  [[(x0, y0); (x1, y0); (x1, y1); (x0, y1); (x0, y0)]].

(** A square over the four central pixels, and one far outside the raster. *)
Definition inner : Shapes := [square 10 10 30 30].
Definition outer : Shapes := [square 100 100 110 110].

(** The window of [inner] on [raster]: the four central pixels. *)
Definition inner_window : Window.t := Window.mk 1 1 2 2.

End Sample.

(** ** Further observations of a trace and of an output *)

(** The messages of the warnings emitted, in order. *)
Fixpoint warnings (t : list event) : list string :=
  match t with
  | [] => []
  | Warning msg :: t' => msg :: warnings t'
  | _ :: t' => warnings t'
  end.

(** The (raster, shapes, north_up) of every request for a geometry window. *)
Fixpoint window_requests (t : list event)
  : list (Raster.t * Shapes * bool) :=
  match t with
  | [] => []
  | GeometryWindowCall r shapes nu _ _ _ :: t' =>
      (r, shapes, nu) :: window_requests t'
  | _ :: t' => window_requests t'
  end.

(** The windows whose transform was requested. *)
Fixpoint transform_requests (t : list event) : list Window.t :=
  match t with
  | [] => []
  | WindowTransformCall _ w _ :: t' => w :: transform_requests t'
  | _ :: t' => transform_requests t'
  end.

(** The (transform, out_shape) of every request made to the rasterizer. *)
Fixpoint rasterizer_requests (t : list event)
  : list (Affine.t * (nat * nat)) :=
  match t with
  | [] => []
  | GeometryMaskCall _ tr _ out_shape _ _ :: t' =>
      (tr, out_shape) :: rasterizer_requests t'
  | _ :: t' => rasterizer_requests t'
  end.

(** The (window, out_shape, masked) of every pixel read requested. *)
Fixpoint read_requests (t : list event)
  : list (option Window.t * (nat * nat * nat) * bool) :=
  match t with
  | [] => []
  | ReadCall _ window out_shape masked _ :: t' =>
      (window, out_shape, masked) :: read_requests t'
  | _ :: t' => read_requests t'
  end.

(** The exceptions with which collaborators answered a request. *)
Fixpoint failures (t : list event) : list exn :=
  match t with
  | [] => []
  | GeometryWindowCall _ _ _ _ _ (Raise err) :: t'
  | WindowTransformCall _ _ (Raise err) :: t'
  | GeometryMaskCall _ _ _ _ _ (Raise err) :: t'
  | ReadCall _ _ _ _ (Raise err) :: t' => err :: failures t'
  | _ :: t' => failures t'
  end.

Definition image_shape (out : Image) : nat * nat * nat :=
  match out with
  | Plain arr => arr_shape arr
  | Masked ma => ma_shape ma
  end.

Definition image_data (out : Image) : list (list (list Z)) :=
  match out with
  | Plain arr => arr_data arr
  | Masked ma => ma_data ma
  end.

(** Reference worlds in which one collaborator fails. *)
Module Outage.

Definition window_error : exn :=
  ExternalError "WindowError"%string "windows do not intersect"%string.
Definition io_error : exn :=
  ExternalError "RasterioIOError"%string "read failed"%string.

Definition no_window : Collaborators :=
  with_geometry_window Sample.world (λ _ _ _ _ _, Raise window_error).

Definition no_read : Collaborators :=
  {| geometry_window := @geometry_window Sample.world;
     geometry_mask := @geometry_mask Sample.world;
     window_transform := @window_transform Sample.world;
     read := λ _ _ _ _, Raise io_error;
     convert_overflowing := @convert_overflowing Sample.world |}.

End Outage.

(** A window of no extent that does not start at the origin, and a world
    whose geometry-window computation answers with it and whose rasterizer
    refuses a grid without rows or columns. *)
Definition empty_window_off_origin : Window.t := Window.mk 2 1 0 0.

Definition empty_grid_error : exn :=
  ValueError "width and height must be > 0"%string.

Definition empty_window_world : Collaborators :=
  {| geometry_window := λ _ _ _ _ _, Ok empty_window_off_origin;
     geometry_mask := λ shapes t invert out_shape all_touched,
       if bool_decide (out_shape.1 = 0 ∨ out_shape.2 = 0)
       then Raise empty_grid_error
       else @geometry_mask Sample.world shapes t invert out_shape
              all_touched;
     window_transform := @window_transform Sample.world;
     read := @read Sample.world;
     convert_overflowing := @convert_overflowing Sample.world |}.

(** * Properties *)

(** ** Nested lists as arrays *)

Section Arrays.
Context {A B C : Type}.
Implicit Types (f : A → B → C).

Lemma at2_zip_with f (x : list (list A)) (y : list (list B)) i j :
  at2 (zip_with (zip_with f) x y) i j
  = match at2 x i j, at2 y i j with
    | Some u, Some v => Some (f u v)
    | _, _ => None
    end.
Proof.
  unfold at2. rewrite lookup_zip_with.
  destruct (x !! i) as [rx|]; simpl; [|done].
  destruct (y !! i) as [ry|]; simpl.
  - rewrite lookup_zip_with. by destruct (rx !! j), (ry !! j).
  - by destruct (rx !! j).
Qed.

Lemma at3_zip_with f (x : list (list (list A))) (y : list (list (list B)))
    k i j :
  at3 (zip_with (zip_with (zip_with f)) x y) k i j
  = match at3 x k i j, at3 y k i j with
    | Some u, Some v => Some (f u v)
    | _, _ => None
    end.
Proof.
  unfold at3. rewrite lookup_zip_with.
  destruct (x !! k) as [bx|]; simpl; [|done].
  destruct (y !! k) as [b_y|]; simpl.
  - apply at2_zip_with.
  - by destruct (at2 bx i j).
Qed.

Lemma well_shaped2_spec h w (l : list (list A)) :
  well_shaped2 (h, w) l = true
  ↔ length l = h ∧ Forall (λ row, length row = w) l.
Proof.
  unfold well_shaped2. simpl. rewrite andb_true_iff, bool_decide_eq_true.
  rewrite forallb_forall, Forall_forall.
  split; intros [? Hrows]; split; try done; intros row Hin.
  - apply list_elem_of_In, Hrows in Hin. by apply bool_decide_eq_true in Hin.
  - apply bool_decide_eq_true, Hrows. by apply list_elem_of_In.
Qed.

Lemma well_shaped3_spec c h w (l : list (list (list A))) :
  well_shaped3 (c, h, w) l = true
  ↔ length l = c ∧ Forall (λ band, well_shaped2 (h, w) band = true) l.
Proof.
  unfold well_shaped3. simpl. rewrite andb_true_iff, bool_decide_eq_true.
  rewrite forallb_forall, Forall_forall.
  split; intros [? Hb]; split; try done; intros band Hin.
  - by apply list_elem_of_In, Hb in Hin.
  - apply Hb. by apply list_elem_of_In.
Qed.

Lemma well_shaped2_at h w (l : list (list A)) i j :
  well_shaped2 (h, w) l = true →
  is_Some (at2 l i j) ↔ i < h ∧ j < w.
Proof.
  intros [Hlen Hrows]%well_shaped2_spec. unfold at2.
  destruct (l !! i) as [row|] eqn:Hrow.
  - assert (i < h) by (rewrite <- Hlen; by eapply lookup_lt_Some).
    rewrite Forall_lookup in Hrows. specialize (Hrows _ _ Hrow).
    rewrite lookup_lt_is_Some, Hrows. tauto.
  - apply lookup_ge_None in Hrow. split; [by intros [? ?]|]. lia.
Qed.

Lemma well_shaped3_at c h w (l : list (list (list A))) k i j :
  well_shaped3 (c, h, w) l = true →
  is_Some (at3 l k i j) ↔ k < c ∧ i < h ∧ j < w.
Proof.
  intros [Hlen Hb]%well_shaped3_spec. unfold at3.
  destruct (l !! k) as [band|] eqn:Hband.
  - assert (k < c) by (rewrite <- Hlen; by eapply lookup_lt_Some).
    rewrite Forall_lookup in Hb. specialize (Hb _ _ Hband).
    rewrite (well_shaped2_at _ _ _ _ _ Hb). tauto.
  - apply lookup_ge_None in Hband. split; [by intros [? ?]|]. lia.
Qed.

End Arrays.

Lemma well_shaped2_zip_with {A B C} (f : A → B → C) h w x y :
  well_shaped2 (h, w) x = true → well_shaped2 (h, w) y = true →
  well_shaped2 (h, w) (zip_with (zip_with f) x y) = true.
Proof.
  intros [Hx Hxr]%well_shaped2_spec [Hy Hyr]%well_shaped2_spec.
  apply well_shaped2_spec. split.
  - rewrite length_zip_with_l_eq; congruence.
  - rewrite Forall_lookup in Hxr. rewrite Forall_lookup in Hyr.
    rewrite Forall_lookup. intros i row Hrow.
    apply lookup_zip_with_Some in Hrow as (rx & ry & -> & Hrx & Hry).
    specialize (Hxr _ _ Hrx). specialize (Hyr _ _ Hry).
    rewrite length_zip_with_l_eq; congruence.
Qed.

Lemma well_shaped3_zip_with {A B C} (f : A → B → C) c h w x y :
  well_shaped3 (c, h, w) x = true → well_shaped3 (c, h, w) y = true →
  well_shaped3 (c, h, w) (zip_with (zip_with (zip_with f)) x y) = true.
Proof.
  intros [Hx Hxb]%well_shaped3_spec [Hy Hyb]%well_shaped3_spec.
  apply well_shaped3_spec. split.
  - rewrite length_zip_with_l_eq; congruence.
  - rewrite Forall_lookup in Hxb. rewrite Forall_lookup in Hyb.
    rewrite Forall_lookup. intros k band Hband.
    apply lookup_zip_with_Some in Hband as (bx & b_y & -> & Hbx & Hby).
    apply well_shaped2_zip_with; [by eapply Hxb | by eapply Hyb].
Qed.

Lemma at3_broadcast_or m3 rows k i j :
  at3 (broadcast_or m3 rows) k i j
  = match at3 m3 k i j, at2 rows i j with
    | Some s, Some g => Some (s || g)
    | _, _ => None
    end.
Proof.
  unfold at3, broadcast_or. rewrite list_lookup_fmap.
  destruct (m3 !! k) as [band|]; simpl; [|done].
  apply at2_zip_with.
Qed.

Lemma well_shaped3_broadcast_or c h w m3 rows :
  well_shaped3 (c, h, w) m3 = true → well_shaped2 (h, w) rows = true →
  well_shaped3 (c, h, w) (broadcast_or m3 rows) = true.
Proof.
  intros [Hlen Hb]%well_shaped3_spec Hrows.
  apply well_shaped3_spec. unfold broadcast_or. split.
  - by rewrite length_fmap.
  - rewrite Forall_fmap. eapply Forall_impl; [exact Hb|].
    intros band Hband. simpl. by apply well_shaped2_zip_with.
Qed.

Lemma grid_mul_ones shape flag :
  grid_mul (np_ones shape) flag = constant_grid shape flag.
Proof.
  unfold grid_mul, np_ones, constant_grid. simpl. f_equal.
  rewrite fmap_replicate. f_equal. by rewrite fmap_replicate.
Qed.

Lemma at2_constant_grid shape v i j x :
  at2 (grid_rows (constant_grid shape v)) i j = Some x → x = v.
Proof.
  unfold at2, constant_grid. simpl.
  destruct (replicate _ _ !! i) as [row|] eqn:Hrow; [|done].
  apply lookup_replicate in Hrow as [-> _].
  intros Hx. by apply lookup_replicate in Hx as [-> _].
Qed.

Lemma valid_constant_grid shape v : valid_grid (constant_grid shape v) = true.
Proof.
  destruct shape as [h w]. apply well_shaped2_spec. simpl. split.
  - apply length_replicate.
  - apply Forall_forall. intros row [-> _]%elem_of_replicate.
    apply length_replicate.
Qed.

Lemma at2_constant_grid_lt h w v i j :
  i < h → j < w → at2 (grid_rows (constant_grid (h, w) v)) i j = Some v.
Proof.
  intros Hi Hj. unfold at2, constant_grid. simpl.
  rewrite lookup_replicate_2 by done. by apply lookup_replicate_2.
Qed.

(** ** The paths through [raster_geom_mask] *)

Ltac run_step :=
  unfold call_geometry_window, call_window_transform, call_geometry_mask,
    call_read, raise, warn, lift, mbind, M_bind, mret, M_ret; simpl.

Ltac case_run :=
  repeat match goal with
         | |- context [match ?x with Ok _ => _ | Raise _ => _ end] =>
             destruct x; simpl
         | |- context [if ?b then _ else _] => destruct b; simpl
         end.

Section Paths.
Context {env : Collaborators}.

Lemma rgm_config_error r shapes all_touched pad :
  raster_geom_mask r shapes all_touched true true pad
  = ([], Raise config_error).
Proof. reflexivity. Qed.

Lemma rgm_window_error r shapes all_touched invert crop pad err :
  crop && invert = false →
  geometry_window r shapes (north_up r) (padding crop pad) (padding crop pad)
    = Raise err →
  raster_geom_mask r shapes all_touched invert crop pad
  = ([GeometryWindowCall r shapes (north_up r) (padding crop pad)
        (padding crop pad) (Raise err)], Raise err).
Proof.
  intros Hg Hw. unfold raster_geom_mask, padding, north_up in *. rewrite Hg.
  destruct (crop && pad); run_step; by rewrite Hw.
Qed.

Lemma rgm_no_overlap_crop r shapes all_touched pad w :
  geometry_window r shapes (north_up r) (padding true pad) (padding true pad)
    = Ok w →
  degenerate w →
  raster_geom_mask r shapes all_touched false true pad
  = ([GeometryWindowCall r shapes (north_up r) (padding true pad)
        (padding true pad) (Ok w)], Raise overlap_error).
Proof.
  intros Hw Hd. unfold raster_geom_mask, padding, north_up in *. simpl in *.
  destruct pad; run_step; rewrite Hw; simpl.
  all: unfold degenerate in Hd; by rewrite decide_True.
Qed.

Lemma rgm_no_overlap r shapes all_touched invert pad w :
  geometry_window r shapes (north_up r) 0 0 = Ok w →
  degenerate w →
  raster_geom_mask r shapes all_touched invert false pad
  = ([GeometryWindowCall r shapes (north_up r) 0 0 (Ok w);
      Warning overlap_warning],
     Ok (constant_grid (Raster.height r, Raster.width r) (negb invert),
         Raster.transform r, None)).
Proof.
  intros Hw Hd. unfold raster_geom_mask, north_up in *. simpl.
  run_step. rewrite Hw. simpl.
  unfold degenerate in Hd. rewrite decide_True by done. simpl.
  by rewrite grid_mul_ones.
Qed.

Lemma rgm_crop r shapes all_touched pad w :
  geometry_window r shapes (north_up r) (padding true pad) (padding true pad)
    = Ok w →
  ¬ degenerate w →
  raster_geom_mask r shapes all_touched false true pad
  = let wt := window_transform r w in
    let ev_w := GeometryWindowCall r shapes (north_up r) (padding true pad)
                  (padding true pad) (Ok w) in
    let ev_t := WindowTransformCall r w wt in
    match wt with
    | Raise err => ([ev_w; ev_t], Raise err)
    | Ok t =>
        let out_shape := (Window.height w, Window.width w) in
        let gm := geometry_mask shapes t false out_shape all_touched in
        ([ev_w; ev_t; GeometryMaskCall shapes t false out_shape all_touched gm],
         match gm with
         | Ok g => Ok (g, t, Some w)
         | Raise err => Raise err
         end)
    end.
Proof.
  intros Hw Hd. unfold raster_geom_mask, padding, north_up in *. simpl in *.
  destruct pad; run_step; rewrite Hw; simpl.
  all: unfold degenerate in Hd; rewrite decide_False by done; simpl.
  all: destruct (window_transform r w) as [t|err]; simpl; [|done].
  all: by destruct (geometry_mask shapes t false _ all_touched).
Qed.

Lemma rgm_no_crop r shapes all_touched invert pad w :
  geometry_window r shapes (north_up r) 0 0 = Ok w →
  ¬ degenerate w →
  raster_geom_mask r shapes all_touched invert false pad
  = let out_shape := (Raster.height r, Raster.width r) in
    let gm := geometry_mask shapes (Raster.transform r) invert out_shape
                all_touched in
    ([GeometryWindowCall r shapes (north_up r) 0 0 (Ok w);
      GeometryMaskCall shapes (Raster.transform r) invert out_shape
        all_touched gm],
     match gm with
     | Ok g => Ok (g, Raster.transform r, None)
     | Raise err => Raise err
     end).
Proof.
  intros Hw Hd. unfold raster_geom_mask, north_up in *. simpl.
  run_step. rewrite Hw. simpl.
  unfold degenerate in Hd. rewrite decide_False by done. simpl.
  by destruct (geometry_mask shapes _ invert _ all_touched).
Qed.

(** The window is requested only when the configuration guard is passed,
    and the window a call computed is the answer to that request. *)
Lemma computed_window_guard r shapes all_touched invert crop pad w :
  computed_window
    (trace (raster_geom_mask r shapes all_touched invert crop pad)) = Some w →
  crop && invert = false ∧
  geometry_window r shapes (north_up r) (padding crop pad) (padding crop pad)
    = Ok w.
Proof.
  unfold raster_geom_mask, north_up, padding.
  destruct (crop && invert) eqn:Hg; [done|].
  intros Hc. split; [done|]. revert Hc.
  destruct (crop && pad); run_step.
  all: destruct (geometry_window _ _ _ _ _) as [w'|err] eqn:Hw; simpl.
  all: case_run; congruence.
Qed.

Lemma computed_window_no_crop r shapes all_touched invert pad w :
  computed_window
    (trace (raster_geom_mask r shapes all_touched invert false pad)) = Some w →
  geometry_window r shapes (north_up r) 0 0 = Ok w.
Proof. intros Hc. by apply computed_window_guard in Hc as [_ Hw]. Qed.

Lemma computed_window_crop r shapes all_touched invert pad w :
  computed_window
    (trace (raster_geom_mask r shapes all_touched invert true pad)) = Some w →
  invert = false ∧
  geometry_window r shapes (north_up r) (padding true pad) (padding true pad)
    = Ok w.
Proof. intros Hc. by apply computed_window_guard in Hc as [? Hw]. Qed.

End Paths.

(** ** The geometry mask builder *)

Section GeometryMaskBuilder.
Context {env : Collaborators}.

(** C2.  With [crop] and [invert] both true, [raster_geom_mask] fails with
    the configuration error whatever the raster, the shapes and the other
    flags are, and so does [mask]; the trace of either call is empty: no
    collaborator has been asked anything and no warning has been emitted
    when the error is raised.  (In [mask] only the choice of the nodata
    default, which asks nothing of the collaborators, comes before the
    guard.) *)
Theorem config_error_immediate r shapes all_touched nodata filled pad :
  raster_geom_mask r shapes all_touched true true pad
    = ([], Raise config_error) ∧
  mask r shapes all_touched true nodata filled true pad
    = ([], Raise config_error).
Proof. split; reflexivity. Qed.

(** C7 (as amended).  A call that passes the configuration guard asks for
    the geometry window exactly once, and the padding it hands over is the
    constant 1/2 on both axes when [crop] and [pad] are both true and 0 on
    both axes in every other combination; the value never depends on the
    raster.  A call stopped by the guard asks for no window. *)
Theorem padding_passed r shapes all_touched invert crop pad :
  window_paddings
    (trace (raster_geom_mask r shapes all_touched invert crop pad))
  = if crop && invert then []
    else [if crop && pad then ((1 # 2)%Q, (1 # 2)%Q) else (0%Q, 0%Q)].
Proof.
  unfold raster_geom_mask.
  destruct (crop && invert); [done|].
  destruct (crop && pad); run_step.
  all: destruct (geometry_window _ _ _ _ _); simpl; [|done].
  all: case_run; done.
Qed.

(** C1.  When the window a call computed is the all-zero sentinel: with
    [crop] the call fails with the overlap error; without [crop] it emits
    the overlap warning and returns a grid of shape (height, width) whose
    every cell is [not invert], the raster's own transform and no window. *)
Theorem no_overlap r shapes all_touched invert crop pad w :
  let run := raster_geom_mask r shapes all_touched invert crop pad in
  computed_window (trace run) = Some w →
  degenerate w →
  (crop = true → outcome run = Raise overlap_error) ∧
  (crop = false →
   ∃ g,
     run = ([GeometryWindowCall r shapes (north_up r) 0 0 (Ok w);
             Warning overlap_warning],
            Ok (g, Raster.transform r, None)) ∧
     grid_shape g = (Raster.height r, Raster.width r) ∧
     valid_grid g = true ∧
     ∀ i j, i < Raster.height r → j < Raster.width r →
       at2 (grid_rows g) i j = Some (negb invert)).
Proof.
  intros run Hc Hd. subst run. split; intros ->.
  - apply computed_window_crop in Hc as [-> Hw].
    by rewrite (rgm_no_overlap_crop _ _ _ _ _ Hw Hd).
  - apply computed_window_no_crop in Hc.
    rewrite (rgm_no_overlap _ _ _ _ _ _ Hc Hd).
    eexists. split; [reflexivity|]. split; [done|].
    split; [apply valid_constant_grid|].
    intros i j Hi Hj. by apply at2_constant_grid_lt.
Qed.

(** C3.  With [crop] and a computed window that is not the sentinel: what
    the call returns is that window, the transform that
    [raster.window_transform] gives for it, and a grid whose shape is the
    window's (height, width); and the call does return as soon as the
    window transform and the rasterizer do. *)
Theorem crop_result r shapes all_touched invert pad w :
  let run := raster_geom_mask r shapes all_touched invert true pad in
  rasterizer_honours_shape env →
  computed_window (trace run) = Some w →
  ¬ degenerate w →
  (∀ g t win, outcome run = Ok (g, t, win) →
     win = Some w ∧ window_transform r w = Ok t ∧
     grid_shape g = (Window.height w, Window.width w)) ∧
  (∀ t g, window_transform r w = Ok t →
     geometry_mask shapes t invert (Window.height w, Window.width w)
       all_touched = Ok g →
     outcome run = Ok (g, t, Some w)).
Proof.
  intros run Hshape Hc Hd. subst run.
  apply computed_window_crop in Hc as [-> Hw].
  rewrite (rgm_crop _ _ _ _ _ Hw Hd). simpl. split.
  - intros g t win.
    destruct (window_transform r w) as [t'|] eqn:Ht; simpl; [|done].
    destruct (geometry_mask _ _ _ _ _) as [g'|] eqn:Hg; simpl; [|done].
    intros [= -> -> <-]. by apply Hshape in Hg as [-> _].
  - intros t g -> Hg. simpl. unfold outcome. simpl. by rewrite Hg.
Qed.

(** C4.  Without [crop] and with a computed window that is not the
    sentinel: the call returns the raster's own transform, no window, and
    a grid of shape (height, width); the result is the rasterizer's answer
    for the native transform and the full shape, and it is the same
    whichever non-sentinel window the geometry-window computation found. *)
Theorem no_crop_result r shapes all_touched invert pad w :
  let run := raster_geom_mask r shapes all_touched invert false pad in
  rasterizer_honours_shape env →
  computed_window (trace run) = Some w →
  ¬ degenerate w →
  (∀ g t win, outcome run = Ok (g, t, win) →
     t = Raster.transform r ∧ win = None ∧
     grid_shape g = (Raster.height r, Raster.width r)) ∧
  (∀ g, geometry_mask shapes (Raster.transform r) invert
          (Raster.height r, Raster.width r) all_touched = Ok g →
     outcome run = Ok (g, Raster.transform r, None)) ∧
  (∀ gw' w', gw' r shapes (north_up r) 0%Q 0%Q = Ok w' → ¬ degenerate w' →
     outcome (raster_geom_mask (env := with_geometry_window env gw')
                r shapes all_touched invert false pad)
     = outcome run).
Proof.
  intros run Hshape Hc Hd. subst run.
  apply computed_window_no_crop in Hc.
  rewrite (rgm_no_crop _ _ _ _ _ _ Hc Hd). simpl. split; [|split].
  - intros g t win.
    destruct (geometry_mask _ _ _ _ _) as [g'|] eqn:Hg; simpl; [|done].
    intros [= -> <- <-]. by apply Hshape in Hg as [-> _].
  - intros g Hg. unfold outcome. simpl. by rewrite Hg.
  - intros gw' w' Hw' Hd'.
    by rewrite (rgm_no_crop (env := with_geometry_window env gw')
                  _ _ _ _ _ _ Hw' Hd').
Qed.

End GeometryMaskBuilder.

(** ** The raster masker *)

Lemma computed_window_app_read t r win sh masked ret :
  computed_window (t ++ [ReadCall r win sh masked ret]) = computed_window t.
Proof.
  induction t as [|ev t IH]; [done|].
  destruct ev as [? ? ? ? ? [w|]| | | |]; simpl; auto.
Qed.

Lemma at3_filled img v k i j :
  at3 (arr_data (fill_where img v)) k i j
  = match at3 (ma_data img) k i j, at3 (ma_mask img) k i j with
    | Some d, Some m => Some (if m then v else d)
    | _, _ => None
    end.
Proof.
  unfold fill_where. simpl.
  apply (at3_zip_with (λ d (m : bool), if m then v else d)).
Qed.

(** *** The conversion of the fill value *)

Section FillValue.
Context {env : Collaborators}.

Lemma check_fill_value_int d z :
  in_range d z = true → check_fill_value (PyInt z) d = Ok z.
Proof. intros Hr. simpl. by rewrite Hr. Qed.

Lemma check_fill_value_int_out d z :
  in_range d z = false →
  check_fill_value (PyInt z) d = Raise (FillTypeError (PyInt z) d).
Proof. intros Hr. simpl. by rewrite Hr. Qed.


Lemma ma_filled_unfold img fill_value :
  ma_filled img fill_value
  = match check_fill_value fill_value (ma_dtype img) with
    | Ok v => Ok (fill_where img v)
    | Raise err => Raise err
    end.
Proof. reflexivity. Qed.

End FillValue.

Section RasterMasker.
Context {env : Collaborators}.


Lemma mask_after_geom r shapes all_touched invert nodata filled crop pad
    t g tr win img :
  raster_geom_mask r shapes all_touched invert crop pad
    = (t, Ok (g, tr, win)) →
  read r win (Raster.count r, (grid_shape g).1, (grid_shape g).2) true
    = Ok img →
  ((ma_shape img).1.2, (ma_shape img).2) = grid_shape g →
  mask r shapes all_touched invert nodata filled crop pad
  = (t ++ [ReadCall r win
             (Raster.count r, (grid_shape g).1, (grid_shape g).2) true
             (Ok img)],
     packaged filled
       (set_mask img (broadcast_or (ma_mask img) (grid_rows g)))
       (effective_nodata nodata r) tr).
Proof.
  intros Hg Hr Hs. unfold mask, packaged. run_step. rewrite Hg. simpl.
  destruct (grid_shape g) as [h w] eqn:Hgs. simpl in *. rewrite Hr. simpl.
  unfold mask_or. rewrite Hgs, decide_True by done. simpl.
  destruct filled; simpl; [|done].
  by destruct (ma_filled _ _).
Qed.

Lemma computed_window_mask r shapes all_touched invert nodata filled crop pad :
  computed_window
    (trace (mask r shapes all_touched invert nodata filled crop pad))
  = computed_window
      (trace (raster_geom_mask r shapes all_touched invert crop pad)).
Proof.
  unfold mask. run_step.
  destruct (raster_geom_mask _ _ _ _ _ _) as [t [[[g tr] win]|err]]; simpl;
    [|done].
  destruct (grid_shape g) as [h w]. simpl.
  destruct (read _ _ _ _) as [img|]; simpl.
  - unfold mask_or. destruct (decide _); simpl;
      [|apply computed_window_app_read].
    destruct filled; simpl; [destruct (ma_filled _ _); simpl|].
    all: rewrite ?app_nil_r; apply computed_window_app_read.
  - apply computed_window_app_read.
Qed.

(** The grid that [raster_geom_mask] returns is well formed and the read
    that follows it yields an array of matching rows and columns. *)
Lemma rgm_valid_grid r shapes all_touched invert crop pad g tr win :
  rasterizer_honours_shape env →
  outcome (raster_geom_mask r shapes all_touched invert crop pad)
    = Ok (g, tr, win) →
  valid_grid g = true.
Proof.
  intros Hshape. unfold raster_geom_mask.
  destruct (crop && invert); [done|].
  destruct (crop && pad); run_step.
  all: destruct (geometry_window _ _ _ _ _) as [w|]; simpl; [|done].
  all: destruct (decide _); simpl.
  all: destruct crop; simpl; try done.
  all: try (rewrite grid_mul_ones; intros [= <- _ _];
            apply valid_constant_grid).
  all: try (destruct (window_transform _ _); simpl; [|done]).
  all: destruct (geometry_mask _ _ _ _ _) as [g'|] eqn:Hg; simpl; [|done].
  all: intros [= <- _ _]; by apply Hshape in Hg as [_ ?].
Qed.

End RasterMasker.

(** ** The reference world honours the contracts *)

Lemma well_shaped2_tabulate {A} h w (cell : nat → nat → A) :
  well_shaped2 (h, w) ((λ i, cell i <$> seq 0 w) <$> seq 0 h) = true.
Proof.
  apply well_shaped2_spec. split.
  - by rewrite length_fmap, length_seq.
  - rewrite Forall_fmap. apply Forall_forall. intros i _. simpl.
    by rewrite length_fmap, length_seq.
Qed.

Lemma well_shaped3_tabulate {A} c h w (cell : nat → nat → nat → A) :
  well_shaped3 (c, h, w)
    ((λ k, (λ i, cell k i <$> seq 0 w) <$> seq 0 h) <$> seq 0 c) = true.
Proof.
  apply well_shaped3_spec. split.
  - by rewrite length_fmap, length_seq.
  - rewrite Forall_fmap. apply Forall_forall. intros k _. simpl.
    apply well_shaped2_tabulate.
Qed.

Lemma well_shaped3_fmap {A B} (f : A → B) c h w (l : list (list (list A))) :
  well_shaped3 (c, h, w) l = true →
  well_shaped3 (c, h, w)
    ((λ band : list (list A), (λ row : list A, f <$> row) <$> band) <$> l)
  = true.
Proof.
  intros [Hlen Hb]%well_shaped3_spec. apply well_shaped3_spec. split.
  - by rewrite length_fmap.
  - rewrite Forall_fmap. eapply Forall_impl; [exact Hb|].
    intros band [Hh Hrows]%well_shaped2_spec. simpl.
    apply well_shaped2_spec. split.
    + by rewrite length_fmap.
    + rewrite Forall_fmap. eapply Forall_impl; [exact Hrows|].
      intros row Hrow. simpl. by rewrite length_fmap.
Qed.

Lemma sample_rasterizer_honours_shape : rasterizer_honours_shape Sample.world.
Proof.
  intros shapes t invert [h w] all_touched g. simpl.
  unfold Sample.bbox_mask. intros [= <-]. split; [done|].
  unfold valid_grid. simpl. apply well_shaped2_tabulate.
Qed.

Lemma sample_read_honours_shape : read_honours_shape Sample.world.
Proof.
  intros r window out_shape masked img. simpl. unfold Sample.read_samples.
  destruct (decide _) as [->|]; [|done]. intros [= <-]. split; [done|].
  unfold valid_masked. simpl. apply andb_true_iff. split.
  - apply well_shaped3_tabulate.
  - apply well_shaped3_fmap, well_shaped3_tabulate.
Qed.

Lemma same_answers_refl env : same_answers env env.
Proof. by repeat split. Qed.

(** ** Properties of [mask] *)

Section MaskProperties.
Context {env : Collaborators}.

(** What [mask] returns once the geometry mask has been built and the
    pixels have been read, with the facts the contracts give about the two
    arrays. *)
Lemma mask_outcome r shapes all_touched invert nodata filled crop pad
    g tr win img :
  rasterizer_honours_shape env →
  read_honours_shape env →
  outcome (raster_geom_mask r shapes all_touched invert crop pad)
    = Ok (g, tr, win) →
  read r win (Raster.count r, (grid_shape g).1, (grid_shape g).2) true
    = Ok img →
  outcome (mask r shapes all_touched invert nodata filled crop pad)
    = packaged filled
        (set_mask img (broadcast_or (ma_mask img) (grid_rows g)))
        (effective_nodata nodata r) tr ∧
  ma_shape img = (Raster.count r, (grid_shape g).1, (grid_shape g).2) ∧
  valid_masked img = true ∧
  valid_grid g = true.
Proof.
  intros Hgrid Hread Hg Hr.
  pose proof (rgm_valid_grid _ _ _ _ _ _ _ _ _ Hgrid Hg) as Hvg.
  destruct (Hread _ _ _ _ _ Hr) as [Hs Hv].
  destruct (raster_geom_mask _ _ _ _ _ _) as [t res] eqn:Hrun.
  unfold outcome in Hg. simpl in Hg. subst res.
  rewrite (mask_after_geom _ _ _ _ nodata filled _ _ _ _ _ _ _ Hrun Hr).
  - done.
  - rewrite Hs. simpl. by destruct (grid_shape g).
Qed.

Lemma composed_in_range (img : MaskedArray) (g : BoolGrid) c k i j :
  ma_shape img = (c, (grid_shape g).1, (grid_shape g).2) →
  valid_masked img = true →
  valid_grid g = true →
  k < c → i < (grid_shape g).1 → j < (grid_shape g).2 →
  ∃ d s gv,
    at3 (ma_data img) k i j = Some d ∧
    at3 (ma_mask img) k i j = Some s ∧
    at2 (grid_rows g) i j = Some gv ∧
    at3 (broadcast_or (ma_mask img) (grid_rows g)) k i j = Some (s || gv).
Proof.
  intros Hs [Hd Hm]%andb_true_iff Hg Hk Hi Hj.
  unfold valid_grid in Hg. rewrite Hs in Hd, Hm.
  destruct (grid_shape g) as [h w]. simpl in *.
  destruct (proj2 (well_shaped3_at _ _ _ _ k i j Hd)) as [d Hd']; [done|].
  destruct (proj2 (well_shaped3_at _ _ _ _ k i j Hm)) as [s Hs']; [done|].
  destruct (proj2 (well_shaped2_at _ _ _ i j Hg)) as [gv Hg']; [done|].
  exists d, s, gv. rewrite at3_broadcast_or, Hs', Hg'. done.
Qed.

Lemma mask_in_range (img : MaskedArray) (g : BoolGrid) c k i j s :
  ma_shape img = (c, (grid_shape g).1, (grid_shape g).2) →
  valid_masked img = true →
  at3 (ma_mask img) k i j = Some s →
  k < c ∧ i < (grid_shape g).1 ∧ j < (grid_shape g).2.
Proof.
  intros Hs [_ Hm]%andb_true_iff Hat. rewrite Hs in Hm.
  apply (well_shaped3_at _ _ _ _ k i j Hm). by exists s.
Qed.

(** A pixel that the composed mask excludes is excluded in whatever
    [packaged] returns. *)
Lemma packaged_excludes filled (img : MaskedArray) composed nodata tr out tr'
    k i j :
  packaged filled (set_mask img composed) nodata tr = Ok (out, tr') →
  at3 composed k i j = Some true →
  is_Some (at3 (ma_data img) k i j) →
  excluded_in nodata out k i j.
Proof.
  unfold packaged, ma_filled. intros Hout Hc [d Hd].
  destruct filled.
  - simpl in Hout.
    destruct (check_fill_value nodata (ma_dtype img)) as [v|] eqn:Hv;
      [|done].
    injection Hout as <- _. simpl. exists v. split; [done|].
    pose proof (at3_filled (set_mask img composed) v k i j) as Hat.
    simpl in Hat. by rewrite Hat, Hd, Hc.
  - by injection Hout as <- _.
Qed.

(** C5.  The exclusion mask that [mask] composes is, pixel by pixel, the
    logical or of the raster's own invalid-pixel mask and the geometry
    mask, the latter used for every band; hence a pixel that is invalid in
    the raster's mask stays excluded whatever the geometry mask holds
    there, and is excluded in the output of [mask] whenever there is one:
    flagged in the masked output, holding the fill value in the filled
    one. *)
Theorem mask_composition r shapes all_touched invert nodata filled crop pad
    g tr win img :
  rasterizer_honours_shape env →
  read_honours_shape env →
  outcome (raster_geom_mask r shapes all_touched invert crop pad)
    = Ok (g, tr, win) →
  read r win (Raster.count r, (grid_shape g).1, (grid_shape g).2) true
    = Ok img →
  let composed := broadcast_or (ma_mask img) (grid_rows g) in
  let run := mask r shapes all_touched invert nodata filled crop pad in
  (∀ k i j,
     k < Raster.count r → i < (grid_shape g).1 → j < (grid_shape g).2 →
     ∃ s gv,
       at3 (ma_mask img) k i j = Some s ∧
       at2 (grid_rows g) i j = Some gv ∧
       at3 composed k i j = Some (s || gv)) ∧
  (∀ k i j, at3 (ma_mask img) k i j = Some true →
     at3 composed k i j = Some true) ∧
  outcome run
    = packaged filled (set_mask img composed) (effective_nodata nodata r)
        tr ∧
  (∀ out tr', outcome run = Ok (out, tr') →
     match out with
     | Masked ma => ma_mask ma = composed
     | Plain arr => arr_shape arr = ma_shape img
     end ∧
     ∀ k i j, at3 (ma_mask img) k i j = Some true →
       excluded_in (effective_nodata nodata r) out k i j).
Proof.
  intros Hgrid Hread Hg Hr composed run. subst composed run.
  destruct (mask_outcome _ _ _ _ nodata filled _ _ _ _ _ _ Hgrid Hread Hg Hr)
    as (Hout & Hs & Hv & Hvg).
  assert (∀ k i j, at3 (ma_mask img) k i j = Some true →
            at3 (broadcast_or (ma_mask img) (grid_rows g)) k i j = Some true
            ∧ is_Some (at3 (ma_data img) k i j)) as Hkeep.
  { intros k i j Hat.
    destruct (mask_in_range _ _ _ _ _ _ _ Hs Hv Hat) as (Hk & Hi & Hj).
    destruct (composed_in_range _ _ _ k i j Hs Hv Hvg Hk Hi Hj)
      as (d & s & gv & Hd & Hm & _ & Hc).
    assert (s = true) as -> by congruence. split; [exact Hc|by exists d]. }
  split; [|split; [|split]].
  - intros k i j Hk Hi Hj.
    destruct (composed_in_range _ _ _ k i j Hs Hv Hvg Hk Hi Hj)
      as (d & s & gv & _ & ? & ? & ?).
    by exists s, gv.
  - intros k i j Hat. by apply Hkeep.
  - exact Hout.
  - intros out tr' Hret. rewrite Hout in Hret. split.
    + unfold packaged, ma_filled in Hret. destruct filled.
      * destruct (check_fill_value _ _); [|done]. by injection Hret as <- _.
      * by injection Hret as <- _.
    + intros k i j Hat. destruct (Hkeep _ _ _ Hat) as [Hc Hd].
      by eapply packaged_excludes.
Qed.


(** C8.  The effective nodata value is the caller's [nodata] when it is
    given, else the raster's own nodata when it has one, else zero; and
    [mask] behaves exactly as if the caller had passed that value. *)
Theorem nodata_resolution r shapes all_touched invert nodata filled crop pad :
  effective_nodata nodata r
    = match nodata, Raster.nodata r with
      | Some v, _ => v
      | None, Some v => v
      | None, None => PyInt 0
      end ∧
  mask r shapes all_touched invert nodata filled crop pad
    = mask r shapes all_touched invert (Some (effective_nodata nodata r))
        filled crop pad.
Proof. split; [by destruct nodata|reflexivity]. Qed.


End MaskProperties.

(** C9.  Two invocations of [mask] with the same arguments, in worlds
    whose raster source and collaborators answer every request alike,
    produce the same trace and the same outcome: the same output data and
    the same transform. *)
Theorem mask_deterministic (env1 env2 : Collaborators)
    r shapes all_touched invert nodata filled crop pad :
  same_answers env1 env2 →
  mask (env := env1) r shapes all_touched invert nodata filled crop pad
  = mask (env := env2) r shapes all_touched invert nodata filled crop pad.
Proof.
  intros (Hgw & Hgm & Hwt & Hrd & Hcv).
  assert (∀ img v, ma_filled (env := env1) img v
                   = ma_filled (env := env2) img v) as Hfill.
  { intros img [z|q]; unfold ma_filled, check_fill_value; [done|].
    by rewrite Hcv. }
  unfold mask, raster_geom_mask.
  destruct (crop && invert); [done|].
  destruct (crop && pad); run_step; rewrite Hgw.
  all: destruct (geometry_window _ _ _ _ _) as [w|]; simpl; [|done].
  all: destruct (decide _); simpl.
  all: destruct crop; simpl; try done.
  all: try rewrite Hwt.
  all: try (destruct (window_transform _ _) as [t|]; simpl; [|done]).
  all: try rewrite Hgm.
  all: try (destruct (geometry_mask _ _ _ _ _) as [g|]; simpl; [|done]).
  all: try destruct (grid_shape _) as [h w']; simpl.
  all: rewrite Hrd.
  all: destruct (read _ _ _ _) as [img|]; simpl; [|done].
  all: destruct (mask_or _ _ _) as [m|]; simpl; [|done].
  all: destruct filled; simpl; [|done].
  all: by rewrite Hfill.
Qed.

(** ** The module on the reference world *)

Example window_inner :
  Sample.bbox_window Sample.raster Sample.inner true 0 0
  = Ok Sample.inner_window.
Proof. reflexivity. Qed.

Example window_inner_padded :
  Sample.bbox_window Sample.raster Sample.inner true (1 # 2) (1 # 2)
  = Ok (Window.mk 0 0 4 4).
Proof. reflexivity. Qed.

Example window_outer :
  Sample.bbox_window Sample.raster Sample.outer true 0 0
  = Ok Sample.zero_window.
Proof. reflexivity. Qed.

Example mask_inner_cropped :
  outcome (mask (env := Sample.world) Sample.raster Sample.inner
             false false None false true false)
  = Ok (Masked
          {| ma_shape := (2, 2, 2);
             ma_dtype := uint8;
             ma_data := [[[111; 112]; [121; 122]]; [[211; 212]; [221; 222]]]%Z;
             ma_mask := [[[false; true]; [false; false]];
                         [[false; false]; [false; false]]] |},
        Affine.mk 10 0 10 0 (-10) 30).
Proof. reflexivity. Qed.

Example mask_inner_filled :
  outcome (mask (env := Sample.world) Sample.raster Sample.inner
             false false (Some (PyInt 7)) true false false)
  = Ok (Plain
          {| arr_shape := (2, 4, 4);
             arr_dtype := uint8;
             arr_data :=
               [[[7; 7; 7; 7]; [7; 111; 7; 7]; [7; 121; 122; 7]; [7; 7; 7; 7]];
                [[7; 7; 7; 7]; [7; 211; 212; 7]; [7; 221; 222; 7];
                 [7; 7; 7; 7]]]%Z |},
        Raster.transform Sample.raster).
Proof. reflexivity. Qed.

Example fill_value_too_large :
  check_fill_value (env := Sample.world) (PyInt 300) uint8
  = Raise (FillTypeError (PyInt 300) uint8).
Proof. reflexivity. Qed.

Example fill_value_negative :
  check_fill_value (env := Sample.world) (PyInt (-1)) uint8
  = Raise (FillTypeError (PyInt (-1)) uint8).
Proof. reflexivity. Qed.

Example fill_value_truncated :
  check_fill_value (env := Sample.world) (PyFloat (15 # 2)) int32 = Ok 7%Z.
Proof. reflexivity. Qed.

Example fill_value_truncated_towards_zero :
  check_fill_value (env := Sample.world) (PyFloat (- (15 # 2))) int32
  = Ok (-7)%Z.
Proof. reflexivity. Qed.

Example mask_inner_unfillable :
  mask (env := Sample.world) Sample.raster Sample.outer
    false false (Some (PyInt 300)) true false false
  = ([GeometryWindowCall Sample.raster Sample.outer true 0 0
        (Ok Sample.zero_window);
      Warning overlap_warning;
      ReadCall Sample.raster None (2, 4, 4) true
        (read (Collaborators := Sample.world) Sample.raster None (2, 4, 4)
           true)],
     Raise (FillTypeError (PyInt 300) uint8)).
Proof. reflexivity. Qed.

Example mask_outer_cropped :
  outcome (mask (env := Sample.world) Sample.raster Sample.outer
             false false None true true false)
  = Raise overlap_error.
Proof. reflexivity. Qed.

Lemma inner_window_not_degenerate : ¬ degenerate Sample.inner_window.
Proof. intros Hd. discriminate Hd. Qed.

Lemma no_overlap_witness :
  degenerate Sample.zero_window ∧
  outcome (raster_geom_mask (env := Sample.world) Sample.raster Sample.outer
             false false true false) = Raise overlap_error ∧
  ∃ g, outcome (raster_geom_mask (env := Sample.world) Sample.raster
                  Sample.outer false true false false)
       = Ok (g, Raster.transform Sample.raster, None) ∧
       at2 (grid_rows g) 3 3 = Some false.
Proof.
  split; [reflexivity|]. split.
  - apply (no_overlap (env := Sample.world) Sample.raster Sample.outer
             false false true false Sample.zero_window);
      reflexivity.
  - destruct (no_overlap (env := Sample.world) Sample.raster Sample.outer
                false true false false Sample.zero_window
                eq_refl eq_refl) as [_ Hno].
    destruct (Hno eq_refl) as (g & Hrun & _ & _ & Hcell).
    exists g. split.
    + unfold outcome. by rewrite Hrun.
    + apply Hcell; simpl; lia.
Defined.

Lemma crop_result_witness :
  ∃ g t,
    outcome (raster_geom_mask (env := Sample.world) Sample.raster
               Sample.inner false false true false)
    = Ok (g, t, Some Sample.inner_window) ∧
    grid_shape g = (2, 2) ∧
    window_transform (Collaborators := Sample.world) Sample.raster
      Sample.inner_window = Ok t.
Proof.
  destruct (crop_result (env := Sample.world) Sample.raster Sample.inner
              false false false Sample.inner_window
              sample_rasterizer_honours_shape eq_refl
              inner_window_not_degenerate) as [Hret Hrun].
  eexists _, _. split; [apply Hrun; reflexivity|].
  edestruct Hret as (_ & Ht & Hs); [apply Hrun; reflexivity|].
  split; [exact Hs | exact Ht].
Defined.

Lemma no_crop_result_witness :
  ∃ g,
    outcome (raster_geom_mask (env := Sample.world) Sample.raster
               Sample.inner false false false true)
    = Ok (g, Raster.transform Sample.raster, None) ∧
    grid_shape g = (4, 4).
Proof.
  destruct (no_crop_result (env := Sample.world) Sample.raster Sample.inner
              false false true Sample.inner_window
              sample_rasterizer_honours_shape eq_refl
              inner_window_not_degenerate) as (Hret & Hrun & _).
  eexists. split; [apply Hrun; reflexivity|].
  edestruct Hret as (_ & _ & Hs); [apply Hrun; reflexivity|exact Hs].
Defined.

Lemma mask_composition_witness :
  ∃ out tr,
    outcome (mask (env := Sample.world) Sample.raster Sample.inner
               false false None false false false) = Ok (out, tr) ∧
    excluded_in (env := Sample.world) (PyFloat 112) out 0 1 2.
Proof.
  edestruct (mask_composition (env := Sample.world) Sample.raster
               Sample.inner false false None false false false)
    as (_ & _ & _ & Hex);
    [ apply sample_rasterizer_honours_shape
    | apply sample_read_honours_shape
    | reflexivity | reflexivity | ].
  eexists _, _. split; [reflexivity|].
  apply (Hex _ _ eq_refl). reflexivity.
Defined.





Lemma mask_deterministic_witness :
  same_answers Sample.world Sample.world ∧
  mask (env := Sample.world) Sample.raster Sample.inner
    false false None true false false
  = mask (env := Sample.world) Sample.raster Sample.inner
      false false None true false false.
Proof.
  split; [apply same_answers_refl|].
  apply (mask_deterministic Sample.world Sample.world), same_answers_refl.
Defined.

(** C7 as stated does not hold: for the reference raster, whose pixels are
    10 world units wide, a call with [crop] and [pad] hands the
    geometry-window computation the padding 1/2, not half a pixel width in
    world units (which is 5). *)
Lemma padding_not_world_units :
  ¬ (∀ px py,
       (px, py) ∈ window_paddings
                    (trace (raster_geom_mask (env := Sample.world)
                              Sample.raster Sample.inner
                              false false true true)) →
       (px == (half_pixel_world_units Sample.raster).1)%Q ∧
       (py == (half_pixel_world_units Sample.raster).2)%Q).
Proof.
  intros Hall. destruct (Hall (1 # 2)%Q (1 # 2)%Q) as [Hx _].
  - apply list_elem_of_here.
  - vm_compute in Hx. discriminate Hx.
Qed.

(** * Further properties of the module *)

(** ** The two functions as equations *)

Section Equations.
Context {env : Collaborators}.

Lemma rgm_unfold r shapes all_touched invert crop pad :
  raster_geom_mask r shapes all_touched invert crop pad
  = if crop && invert then ([], Raise config_error) else
    let gw := geometry_window r shapes (north_up r)
                (padding crop pad) (padding crop pad) in
    let ev_w := GeometryWindowCall r shapes (north_up r)
                  (padding crop pad) (padding crop pad) gw in
    match gw with
    | Raise err => ([ev_w], Raise err)
    | Ok w =>
        if decide (Window.flatten w = (0, 0, 0, 0)) then
          if crop then ([ev_w], Raise overlap_error)
          else ([ev_w; Warning overlap_warning],
                Ok (constant_grid (Raster.height r, Raster.width r)
                      (negb invert),
                    Raster.transform r, None))
        else if crop then
          let wt := window_transform r w in
          let ev_t := WindowTransformCall r w wt in
          match wt with
          | Raise err => ([ev_w; ev_t], Raise err)
          | Ok t =>
              let sh := (Window.height w, Window.width w) in
              let gm := geometry_mask shapes t invert sh all_touched in
              ([ev_w; ev_t;
                GeometryMaskCall shapes t invert sh all_touched gm],
               match gm with
               | Ok g => Ok (g, t, Some w)
               | Raise err => Raise err
               end)
          end
        else
          let sh := (Raster.height r, Raster.width r) in
          let gm := geometry_mask shapes (Raster.transform r) invert sh
                      all_touched in
          ([ev_w;
            GeometryMaskCall shapes (Raster.transform r) invert sh
              all_touched gm],
           match gm with
           | Ok g => Ok (g, Raster.transform r, None)
           | Raise err => Raise err
           end)
    end.
Proof.
  unfold raster_geom_mask, north_up, padding.
  destruct (crop && invert); [done|].
  destruct (crop && pad); run_step.
  all: destruct (geometry_window _ _ _ _ _) as [w|]; simpl; [|done].
  all: destruct (decide _); simpl.
  all: destruct crop; simpl; try done.
  all: try (by rewrite grid_mul_ones).
  all: try (destruct (window_transform _ _) as [t|]; simpl; [|done]).
  all: by destruct (geometry_mask _ _ _ _ _).
Qed.

Lemma mask_unfold r shapes all_touched invert nodata filled crop pad :
  mask r shapes all_touched invert nodata filled crop pad
  = match raster_geom_mask r shapes all_touched invert crop pad with
    | (t, Raise err) => (t, Raise err)
    | (t, Ok (g, tr, win)) =>
        let sh := (Raster.count r, (grid_shape g).1, (grid_shape g).2) in
        let rd := read r win sh true in
        (t ++ [ReadCall r win sh true rd],
         match rd with
         | Raise err => Raise err
         | Ok img =>
             match mask_or (ma_shape img) (ma_mask img) g with
             | Raise err => Raise err
             | Ok m =>
                 packaged filled (set_mask img m)
                   (effective_nodata nodata r) tr
             end
         end)
    end.
Proof.
  unfold mask, packaged. run_step.
  destruct (raster_geom_mask _ _ _ _ _ _) as [t [[[g tr] win]|err]]; simpl;
    [|done].
  destruct (grid_shape g) as [h w]. simpl.
  destruct (read _ _ _ _) as [img|]; simpl; [|done].
  destruct (mask_or _ _ _); simpl; [|done].
  destruct filled; simpl; [|done].
  by destruct (ma_filled _ _).
Qed.

End Equations.

(** ** Observers and concatenation *)

Ltac observer_app t1 :=
  induction t1 as [|[? ? ? ? ? [?|?]| |? ? [?|?]|? ? ? ? ? [?|?]|? ? ? ? [?|?]]
                     t1 IH];
  simpl; intros; rewrite ?IH; done.

Lemma warnings_app t1 t2 : warnings (t1 ++ t2) = warnings t1 ++ warnings t2.
Proof. observer_app t1. Qed.

Lemma transform_requests_app t1 t2 :
  transform_requests (t1 ++ t2)
  = transform_requests t1 ++ transform_requests t2.
Proof. observer_app t1. Qed.

Lemma rasterizer_requests_app t1 t2 :
  rasterizer_requests (t1 ++ t2)
  = rasterizer_requests t1 ++ rasterizer_requests t2.
Proof. observer_app t1. Qed.

Lemma read_requests_app t1 t2 :
  read_requests (t1 ++ t2) = read_requests t1 ++ read_requests t2.
Proof. observer_app t1. Qed.


(** Case analysis along a run of [mask]: the guard, then the answer of
    each collaborator in the order in which it is asked. *)
Ltac walk_mask :=
  rewrite ?mask_unfold; rewrite ?rgm_unfold; cbv zeta;
  try match goal with
      | |- context [if ?c && ?i then ([], Raise config_error) else _] =>
          destruct (c && i) eqn:?
      end;
  simpl;
  try (destruct (geometry_window _ _ _ _ _) as [?w|?err] eqn:?; simpl);
  try (destruct (decide (Window.flatten _ = _)); simpl);
  try match goal with
      | |- context [if ?c then _ else _] => is_var c; destruct c; simpl
      end;
  try (destruct (window_transform _ _) as [?t|?err] eqn:?; simpl);
  try (destruct (geometry_mask _ _ _ _ _) as [?g|?err] eqn:?; simpl);
  try (destruct (read _ _ _ _) as [?img|?err] eqn:?; simpl);
  try (destruct (mask_or _ _ _) as [?m|?err] eqn:?; simpl);
  unfold packaged;
  try match goal with
      | |- context [if ?c then _ else _] => is_var c; destruct c; simpl
      end;
  try (destruct (ma_filled _ _) as [?arr|?err] eqn:?; simpl).

(** Membership in the list of requests of a run that has been walked. *)
Ltac solve_requests :=
  let req := fresh "req" in
  let Hin := fresh "Hin" in
  intros req Hin; simpl in Hin;
  first [ by apply elem_of_nil in Hin
        | apply list_elem_of_singleton in Hin as ->; done ].

Section Extras.
Context {env : Collaborators}.

(** X1.  Arguments that have no effect: without [crop] the value of [pad]
    changes neither the trace nor the outcome of [raster_geom_mask] and
    [mask]; without [filled] the value of [nodata] changes neither the
    trace nor the outcome of [mask]. *)
Theorem ignored_arguments r shapes all_touched invert nodata nodata' filled
    crop pad pad' :
  raster_geom_mask r shapes all_touched invert false pad
    = raster_geom_mask r shapes all_touched invert false pad' ∧
  mask r shapes all_touched invert nodata filled false pad
    = mask r shapes all_touched invert nodata filled false pad' ∧
  mask r shapes all_touched invert nodata false crop pad
    = mask r shapes all_touched invert nodata' false crop pad.
Proof.
  split; [|split].
  - by rewrite !rgm_unfold.
  - rewrite !mask_unfold. by rewrite !rgm_unfold.
  - rewrite !mask_unfold.
    destruct (raster_geom_mask _ _ _ _ _ _) as [t [[[g tr] win]|err]]; done.
Qed.

(** X2.  [filled] only changes how the result is packaged: the calls with
    [filled] on and off have the same trace; where the call without
    [filled] returns a masked array, the call with [filled] gives what
    [.filled(nodata)] makes of that array, the filled array next to the
    same transform or the [TypeError] of the conversion of the nodata
    value; an exception of the call without [filled] is the same in
    both. *)
Theorem filled_is_fill_of_masked r shapes all_touched invert nodata crop pad :
  let filled_run := mask r shapes all_touched invert nodata true crop pad in
  let masked_run := mask r shapes all_touched invert nodata false crop pad in
  trace filled_run = trace masked_run ∧
  outcome filled_run
  = match outcome masked_run with
    | Ok (Masked ma, tr) =>
        match ma_filled ma (effective_nodata nodata r) with
        | Ok arr => Ok (Plain arr, tr)
        | Raise err => Raise err
        end
    | Ok (Plain arr, tr) => Ok (Plain arr, tr)
    | Raise err => Raise err
    end.
Proof.
  simpl. rewrite !mask_unfold.
  destruct (raster_geom_mask _ _ _ _ _ _) as [t [[[g tr] win]|err]];
    [|done].
  simpl. split; [done|]. unfold outcome. simpl.
  destruct (read _ _ _ _) as [img|]; [|done].
  by destruct (mask_or _ _ _).
Qed.

(** X3.  Without [crop], [mask] never asks for a window transform, asks the
    rasterizer only for the native transform and the full (height, width),
    reads with no window, and whenever it returns, returns the raster's
    own transform: both on the overlap and on the no-overlap path. *)
Theorem no_crop_keeps_georeference r shapes all_touched invert nodata filled
    pad :
  let run := mask r shapes all_touched invert nodata filled false pad in
  transform_requests (trace run) = [] ∧
  (∀ req, req ∈ rasterizer_requests (trace run) →
     req = (Raster.transform r, (Raster.height r, Raster.width r))) ∧
  (∀ req, req ∈ read_requests (trace run) →
     req.1.1 = None ∧ req.2 = true) ∧
  (∀ out tr, outcome run = Ok (out, tr) → tr = Raster.transform r).
Proof.
  simpl. walk_mask.
  all: split; [done|]; split; [solve_requests|].
  all: split; [solve_requests|].
  all: intros out tr'; unfold outcome; simpl; try done.
  all: by intros [= _ <-].
Qed.

(** X4.  A cropped call of [raster_geom_mask] that returns had [invert]
    off, and the window it returns is the computed one: never [None] and
    never the all-zero sentinel; its transform was requested once, for that
    window, and the rasterizer was asked once, for the returned transform
    and the window's (height, width). *)
Theorem cropped_window_is_real r shapes all_touched invert pad g t win :
  let run := raster_geom_mask r shapes all_touched invert true pad in
  outcome run = Ok (g, t, win) →
  invert = false ∧
  ∃ w, win = Some w ∧ ¬ degenerate w ∧
       computed_window (trace run) = Some w ∧
       transform_requests (trace run) = [w] ∧
       rasterizer_requests (trace run)
         = [(t, (Window.height w, Window.width w))].
Proof.
  simpl. rewrite rgm_unfold. cbv zeta. destruct invert; [done|]. simpl.
  destruct (geometry_window _ _ _ _ _) as [w|]; simpl; [|done].
  destruct (decide _) as [|Hnd]; simpl; [done|].
  destruct (window_transform _ _) as [t'|]; simpl; [|done].
  destruct (geometry_mask _ _ _ _ _) as [g'|]; simpl; [|done].
  unfold outcome. simpl. intros [= -> -> <-]. split; [done|].
  exists w. by repeat split.
Qed.

(** X5.  The overlap warning is the only warning of the module, and a call
    of [mask] emits it exactly when [crop] is off and the window it
    computed is the all-zero sentinel; it is emitted once. *)
Theorem warning_iff_no_overlap_without_crop r shapes all_touched invert nodata
    filled crop pad :
  let run := mask r shapes all_touched invert nodata filled crop pad in
  warnings (trace run)
  = match computed_window (trace run) with
    | Some w =>
        if bool_decide (degenerate w) && negb crop then [overlap_warning]
        else []
    | None => []
    end.
Proof.
  simpl. rewrite mask_unfold, rgm_unfold. cbv zeta.
  destruct (crop && invert); [done|]. simpl.
  destruct (geometry_window _ _ _ _ _) as [w|]; simpl; [|done].
  destruct (decide _) as [Hd|Hnd]; destruct crop; simpl.
  - by rewrite (bool_decide_eq_true_2 (degenerate w)) by done.
  - by rewrite (bool_decide_eq_true_2 (degenerate w)) by done.
  - destruct (window_transform _ _); simpl;
      [destruct (geometry_mask _ _ _ _ _); simpl|].
    all: by rewrite (bool_decide_eq_false_2 (degenerate w)) by done.
  - destruct (geometry_mask _ _ _ _ _); simpl.
    all: by rewrite (bool_decide_eq_false_2 (degenerate w)) by done.
Qed.

(** X6.  A call that passes the guard hands the geometry-window
    computation the caller's raster and shapes unchanged, once, together
    with an orientation flag that is true exactly when the row-scale
    coefficient [e] of the raster's transform is zero or negative. *)
Theorem orientation_requested r shapes all_touched invert crop pad :
  window_requests
    (trace (raster_geom_mask r shapes all_touched invert crop pad))
  = (if crop && invert then [] else [(r, shapes, north_up r)]) ∧
  (north_up r = true ↔ (Affine.e (Raster.transform r) <= 0)%Q).
Proof.
  split; [|apply Qle_bool_iff].
  rewrite rgm_unfold. cbv zeta. destruct (crop && invert); [done|].
  destruct (geometry_window _ _ _ _ _) as [w|]; simpl; [|done].
  destruct (decide _); destruct crop; simpl; try done.
  by destruct (window_transform _ _).
Qed.

(** X7.  Once the geometry mask is built, [mask] reads the pixels exactly
    once, with [masked=True], for the window that [raster_geom_mask]
    returned and at that window's own size with all the bands, or for no
    window and at the full raster size when there is none; when the
    geometry mask cannot be built nothing is read. *)
Theorem read_request r shapes all_touched invert nodata filled crop pad :
  let geom := raster_geom_mask r shapes all_touched invert crop pad in
  let run := mask r shapes all_touched invert nodata filled crop pad in
  rasterizer_honours_shape env →
  read_requests (trace run)
  = match outcome geom with
    | Ok (_, _, Some w) =>
        [(Some w, (Raster.count r, Window.height w, Window.width w), true)]
    | Ok (_, _, None) =>
        [(None, (Raster.count r, Raster.height r, Raster.width r), true)]
    | Raise _ => []
    end.
Proof.
  simpl. intros Hshape. rewrite mask_unfold, rgm_unfold. cbv zeta.
  unfold outcome, trace.
  destruct (crop && invert); simpl; [done|].
  destruct (geometry_window _ _ _ _ _) as [w|]; simpl; [|done].
  destruct (decide _); simpl; destruct crop; simpl; try done.
  - destruct (window_transform _ _) as [t|]; simpl; [|done].
    destruct (geometry_mask _ _ _ _ _) as [g|] eqn:Hg; simpl; [|done].
    by apply Hshape in Hg as [-> _].
  - destruct (geometry_mask _ _ _ _ _) as [g|] eqn:Hg; simpl; [|done].
    by apply Hshape in Hg as [-> _].
Qed.

(** X8.  A collaborator's failure ends the call: if a request made during
    [mask] was answered with an exception, that request is the last event
    of the trace, it is the only failure, and [mask] raises that very
    exception. *)
Theorem failure_propagates r shapes all_touched invert nodata filled crop pad
    err :
  let run := mask r shapes all_touched invert nodata filled crop pad in
  err ∈ failures (trace run) →
  outcome run = Raise err ∧
  failures (trace run) = [err] ∧
  ∃ t ev, trace run = t ++ [ev] ∧ failures t = [] ∧ failures [ev] = [err].
Proof.
  simpl. rewrite mask_unfold, rgm_unfold. cbv zeta.
  destruct (crop && invert); simpl; [by intros ?%elem_of_nil|].
  destruct (geometry_window _ _ _ _ _) as [w|e0]; simpl.
  2:{ intros ->%list_elem_of_singleton. repeat split.
      by eexists [], _. }
  destruct (decide _); simpl; destruct crop; simpl.
  - by intros ?%elem_of_nil.
  - destruct (read _ _ _ _) as [img|e1]; simpl;
      [by intros ?%elem_of_nil|].
    intros ->%list_elem_of_singleton. repeat split.
    by eexists [_; _], _.
  - destruct (window_transform _ _) as [t|e1]; simpl.
    2:{ intros ->%list_elem_of_singleton. repeat split.
        by eexists [_], _. }
    destruct (geometry_mask _ _ _ _ _) as [g|e2]; simpl.
    2:{ intros ->%list_elem_of_singleton. repeat split.
        by eexists [_; _], _. }
    destruct (read _ _ _ _) as [img|e3]; simpl;
      [by intros ?%elem_of_nil|].
    intros ->%list_elem_of_singleton. repeat split.
    by eexists [_; _; _], _.
  - destruct (geometry_mask _ _ _ _ _) as [g|e2]; simpl.
    2:{ intros ->%list_elem_of_singleton. repeat split.
        by eexists [_], _. }
    destruct (read _ _ _ _) as [img|e3]; simpl;
      [by intros ?%elem_of_nil|].
    intros ->%list_elem_of_singleton. repeat split.
    by eexists [_; _], _.
Qed.

End Extras.

(** ** Shapes along a run *)

Lemma zip_with_orb_false (row : list bool) w :
  length row = w → zip_with orb row (replicate w false) = row.
Proof.
  intros Hlen. apply list_eq. intros i. rewrite lookup_zip_with.
  destruct (row !! i) as [x|] eqn:Hx; simpl; [|done].
  rewrite lookup_replicate_2; simpl.
  - by rewrite orb_false_r.
  - rewrite <- Hlen. by eapply lookup_lt_Some.
Qed.

Lemma broadcast_or_false c h w (m3 : list (list (list bool))) :
  well_shaped3 (c, h, w) m3 = true →
  broadcast_or m3 (replicate h (replicate w false)) = m3.
Proof.
  intros [_ Hb]%well_shaped3_spec. unfold broadcast_or.
  apply list_eq. intros k. rewrite list_lookup_fmap.
  destruct (m3 !! k) as [band|] eqn:Hband; simpl; [|done]. f_equal.
  rewrite Forall_lookup in Hb. specialize (Hb _ _ Hband).
  apply well_shaped2_spec in Hb as [Hh Hrows].
  apply list_eq. intros i. rewrite lookup_zip_with.
  destruct (band !! i) as [row|] eqn:Hrow; simpl; [|done].
  rewrite lookup_replicate_2; simpl.
  - f_equal. apply zip_with_orb_false.
    rewrite Forall_lookup in Hrows. by eapply Hrows.
  - rewrite <- Hh. by eapply lookup_lt_Some.
Qed.

Section Shapes.
Context {env : Collaborators}.

(** The grid returned by [raster_geom_mask] has the size of the returned
    window, or of the raster when no window is returned. *)
Lemma rgm_grid_shape r shapes all_touched invert crop pad g tr win :
  rasterizer_honours_shape env →
  outcome (raster_geom_mask r shapes all_touched invert crop pad)
    = Ok (g, tr, win) →
  grid_shape g
  = match win with
    | Some w => (Window.height w, Window.width w)
    | None => (Raster.height r, Raster.width r)
    end.
Proof.
  intros Hshape. rewrite rgm_unfold. cbv zeta. unfold outcome.
  destruct (crop && invert); simpl; [done|].
  destruct (geometry_window _ _ _ _ _) as [w|]; simpl; [|done].
  destruct (decide _); simpl; destruct crop; simpl; try done.
  - by intros [= <- _ <-].
  - destruct (window_transform _ _) as [t|]; simpl; [|done].
    destruct (geometry_mask _ _ _ _ _) as [g'|] eqn:Hg; simpl; [|done].
    intros [= <- _ <-]. by apply Hshape in Hg as [-> _].
  - destruct (geometry_mask _ _ _ _ _) as [g'|] eqn:Hg; simpl; [|done].
    intros [= <- _ <-]. by apply Hshape in Hg as [-> _].
Qed.

(** X9.  Whenever [mask] returns, under the shape contracts of the
    rasterizer and of the read, its output has all the bands of the raster
    and the rows and columns of the window that [raster_geom_mask]
    returned (of the whole raster when there is none), and the data is
    well formed for that shape; the transform is the one
    [raster_geom_mask] returned. *)
Theorem output_shape r shapes all_touched invert nodata filled crop pad
    out tr :
  let geom := raster_geom_mask r shapes all_touched invert crop pad in
  let run := mask r shapes all_touched invert nodata filled crop pad in
  rasterizer_honours_shape env →
  read_honours_shape env →
  outcome run = Ok (out, tr) →
  ∃ g win,
    outcome geom = Ok (g, tr, win) ∧
    image_shape out
    = match win with
      | Some w => (Raster.count r, Window.height w, Window.width w)
      | None => (Raster.count r, Raster.height r, Raster.width r)
      end ∧
    well_shaped3 (image_shape out) (image_data out) = true.
Proof.
  simpl. intros Hgrid Hread. rewrite mask_unfold.
  destruct (raster_geom_mask _ _ _ _ _ _) as [t [[[g tr'] win]|]] eqn:Hrun;
    [|done].
  assert (outcome (raster_geom_mask r shapes all_touched invert crop pad)
          = Ok (g, tr', win)) as Hgeom by (by rewrite Hrun).
  pose proof (rgm_grid_shape _ _ _ _ _ _ _ _ _ Hgrid Hgeom) as Hgs.
  pose proof (rgm_valid_grid _ _ _ _ _ _ _ _ _ Hgrid Hgeom) as Hvg.
  cbv zeta. unfold outcome. simpl.
  destruct (read _ _ _ _) as [img|] eqn:Hr; [|done].
  destruct (Hread _ _ _ _ _ Hr) as [Hs Hv].
  unfold mask_or. rewrite Hs. simpl.
  destruct (decide _) as [_|Hne]; [|by destruct (grid_shape g)].
  unfold packaged, ma_filled. intros Hout.
  assert (image_shape out
          = (Raster.count r, (grid_shape g).1, (grid_shape g).2) ∧
          tr' = tr ∧
          (image_data out
           = ma_data img ∨
           ∃ v, image_data out
                = arr_data
                    (fill_where
                       (set_mask img
                          (broadcast_or (ma_mask img) (grid_rows g))) v)))
    as (Hshape & -> & Hdata).
  { destruct filled.
    - destruct (check_fill_value _ _) as [v|]; [|done].
      injection Hout as <- <-. repeat split; [done|]. right. by exists v.
    - injection Hout as <- <-. repeat split; [done|]. by left. }
  exists g, win. split; [done|].
  apply andb_true_iff in Hv as [Hvd Hvm]. unfold valid_grid in Hvg.
  rewrite Hs in Hvd, Hvm.
  rewrite Hshape. split.
  - rewrite Hgs. by destruct win.
  - destruct (grid_shape g) as [h w]. simpl in *.
    destruct Hdata as [->|[v ->]]; [done|]. simpl.
    apply well_shaped3_zip_with; [done|].
    by apply well_shaped3_broadcast_or.
Qed.

End Shapes.

(** ** Where an exception comes from, and what else the mask does *)

Section Provenance.
Context {env : Collaborators}.


(** X11.  No overlap with [invert] and without [crop] leaves the raster
    as it was read: the geometry mask excludes nothing, so the masked
    output is the array that [read] returned, with the raster's own mask,
    and the filled output is what [.filled(nodata)] makes of that very
    array (or its [TypeError]), both next to the raster's own
    transform. *)
Theorem inverted_no_overlap_is_plain_read r shapes all_touched nodata filled
    pad w img :
  let run := mask r shapes all_touched true nodata filled false pad in
  read_honours_shape env →
  computed_window (trace run) = Some w →
  degenerate w →
  read r None (Raster.count r, Raster.height r, Raster.width r) true
    = Ok img →
  outcome run
  = packaged filled img (effective_nodata nodata r) (Raster.transform r).
Proof.
  simpl. intros Hread Hc Hd Hr.
  rewrite computed_window_mask in Hc. apply computed_window_no_crop in Hc.
  pose proof (rgm_no_overlap _ _ all_touched true pad _ Hc Hd) as Hrun.
  destruct (Hread _ _ _ _ _ Hr) as [Hs Hv].
  rewrite (mask_after_geom _ _ _ _ nodata filled _ _ _ _ _ _ _ Hrun Hr)
    by (by rewrite Hs).
  apply andb_true_iff in Hv as [_ Hvm]. rewrite Hs in Hvm.
  unfold outcome. simpl. rewrite (broadcast_or_false _ _ _ _ Hvm).
  assert (set_mask img (ma_mask img) = img) as -> by (by destruct img).
  done.
Qed.

(** X12.  A pixel at which the geometry mask is True is excluded in every
    band of whatever [mask] returns, whatever the raster's own mask holds
    there: flagged in the masked output, holding the fill value in the
    filled one. *)
Theorem geometry_excludes r shapes all_touched invert nodata filled crop pad
    g tr win img :
  let run := mask r shapes all_touched invert nodata filled crop pad in
  rasterizer_honours_shape env →
  read_honours_shape env →
  outcome (raster_geom_mask r shapes all_touched invert crop pad)
    = Ok (g, tr, win) →
  read r win (Raster.count r, (grid_shape g).1, (grid_shape g).2) true
    = Ok img →
  outcome run
    = packaged filled
        (set_mask img (broadcast_or (ma_mask img) (grid_rows g)))
        (effective_nodata nodata r) tr ∧
  ∀ out tr', outcome run = Ok (out, tr') →
    ∀ k i j, k < Raster.count r → at2 (grid_rows g) i j = Some true →
      excluded_in (effective_nodata nodata r) out k i j.
Proof.
  simpl. intros Hgrid Hread Hg Hr.
  destruct (mask_outcome _ _ _ _ nodata filled _ _ _ _ _ _ Hgrid Hread Hg Hr)
    as (Hout & Hs & Hv & Hvg).
  split; [exact Hout|].
  intros out tr' Hret k i j Hk Hat. rewrite Hout in Hret.
  assert (i < (grid_shape g).1 ∧ j < (grid_shape g).2) as [Hi Hj].
  { unfold valid_grid in Hvg. destruct (grid_shape g) as [h w].
    apply (well_shaped2_at _ _ _ i j Hvg). by eexists. }
  destruct (composed_in_range _ _ _ k i j Hs Hv Hvg Hk Hi Hj)
    as (d & s & gv & Hd & Hm & Hgv & Hc).
  assert (gv = true) as -> by congruence. rewrite orb_true_r in Hc.
  eapply packaged_excludes; [exact Hret|exact Hc|by exists d].
Qed.

(** X13.  Only the all-zero window stands for "no overlap".  When the
    geometry-window computation answers with a window of no extent whose
    offset is not zero, a cropped call does not take the no-overlap path:
    it emits no warning, asks for the transform of that window and asks
    the rasterizer for a grid of shape (0, 0); the answer of the
    rasterizer decides the outcome, the grid with the window when it
    returns one, its exception when it refuses. *)
Theorem empty_window_off_origin_is_cropped r shapes all_touched pad w t :
  let run := raster_geom_mask r shapes all_touched false true pad in
  let answer := geometry_mask shapes t false (0, 0) all_touched in
  geometry_window r shapes (north_up r) (padding true pad) (padding true pad)
    = Ok w →
  Window.width w = 0 → Window.height w = 0 →
  (Window.col_off w ≠ 0 ∨ Window.row_off w ≠ 0) →
  window_transform r w = Ok t →
  warnings (trace run) = [] ∧
  transform_requests (trace run) = [w] ∧
  rasterizer_requests (trace run) = [(t, (0, 0))] ∧
  outcome run
  = match answer with
    | Ok g => Ok (g, t, Some w)
    | Raise err => Raise err
    end.
Proof.
  simpl. intros Hw Hwidth Hheight Hoff Ht.
  assert (¬ degenerate w) as Hnd.
  { unfold degenerate, Window.flatten. intros [= Hc Hr _ _].
    destruct Hoff; congruence. }
  rewrite (rgm_crop _ _ _ _ _ Hw Hnd). simpl.
  rewrite Ht, Hheight, Hwidth. by simpl.
Qed.

End Provenance.

(** ** The further properties on the reference worlds *)

Example mask_without_read :
  mask (env := Outage.no_read) Sample.raster Sample.outer
    false false None true false false
  = ([GeometryWindowCall Sample.raster Sample.outer true 0 0
        (Ok Sample.zero_window);
      Warning overlap_warning;
      ReadCall Sample.raster None (2, 4, 4) true (Raise Outage.io_error)],
     Raise Outage.io_error).
Proof. reflexivity. Qed.

Example mask_without_window :
  mask (env := Outage.no_window) Sample.raster Sample.inner
    false false None true true true
  = ([GeometryWindowCall Sample.raster Sample.inner true (1 # 2) (1 # 2)
        (Raise Outage.window_error)],
     Raise Outage.window_error).
Proof. reflexivity. Qed.

Lemma cropped_window_is_real_witness :
  ∃ w, ¬ degenerate w ∧
       transform_requests
         (trace (raster_geom_mask (env := Sample.world) Sample.raster
                   Sample.inner false false true false)) = [w].
Proof.
  edestruct (cropped_window_is_real (env := Sample.world) Sample.raster
               Sample.inner false false false)
    as (_ & w & _ & Hnd & _ & Hreq & _); [reflexivity|].
  exists w. split; [exact Hnd | exact Hreq].
Defined.

Lemma read_request_witness :
  rasterizer_honours_shape Sample.world ∧
  read_requests
    (trace (mask (env := Sample.world) Sample.raster Sample.inner
              false false None true true false))
  = [(Some Sample.inner_window, (2, 2, 2), true)].
Proof.
  split; [apply sample_rasterizer_honours_shape|].
  exact (read_request (env := Sample.world) Sample.raster Sample.inner
           false false None true true false
           sample_rasterizer_honours_shape).
Defined.

Lemma failure_propagates_witness :
  outcome (mask (env := Outage.no_read) Sample.raster Sample.inner
             false false None true true false)
  = Raise Outage.io_error.
Proof.
  apply (failure_propagates (env := Outage.no_read) Sample.raster
           Sample.inner false false None true true false Outage.io_error).
  vm_compute. constructor.
Defined.

Lemma output_shape_witness :
  ∃ out tr,
    outcome (mask (env := Sample.world) Sample.raster Sample.inner
               false false None true true false) = Ok (out, tr) ∧
    well_shaped3 (image_shape out) (image_data out) = true.
Proof.
  eexists _, _. split; [reflexivity|].
  edestruct (output_shape (env := Sample.world) Sample.raster Sample.inner
               false false None true true false)
    as (g & win & _ & _ & Hwell);
    [ apply sample_rasterizer_honours_shape
    | apply sample_read_honours_shape
    | reflexivity
    | exact Hwell ].
Defined.


Lemma inverted_no_overlap_witness :
  ∃ img,
    read (Collaborators := Sample.world) Sample.raster None (2, 4, 4) true
      = Ok img ∧
    outcome (mask (env := Sample.world) Sample.raster Sample.outer
               false true None false false false)
    = Ok (Masked img, Raster.transform Sample.raster).
Proof.
  eexists. split; [reflexivity|].
  apply (inverted_no_overlap_is_plain_read (env := Sample.world)
           Sample.raster Sample.outer false None false false
           Sample.zero_window);
    [apply sample_read_honours_shape | reflexivity..].
Defined.

Lemma geometry_excludes_witness :
  ∃ out tr,
    outcome (mask (env := Sample.world) Sample.raster Sample.inner
               false false None true false false) = Ok (out, tr) ∧
    excluded_in (env := Sample.world) (PyFloat 112) out 1 0 0.
Proof.
  edestruct (geometry_excludes (env := Sample.world) Sample.raster
               Sample.inner false false None true false false)
    as (_ & Hex);
    [ apply sample_rasterizer_honours_shape
    | apply sample_read_honours_shape
    | reflexivity | reflexivity | ].
  eexists _, _. split; [reflexivity|].
  apply (Hex _ _ eq_refl); [simpl; lia | reflexivity].
Defined.

Lemma empty_window_off_origin_witness :
  outcome (raster_geom_mask (env := empty_window_world) Sample.raster
             Sample.inner false false true false)
  = Raise empty_grid_error.
Proof.
  edestruct (empty_window_off_origin_is_cropped (env := empty_window_world)
               Sample.raster Sample.inner false false
               empty_window_off_origin)
    as (_ & _ & _ & Hout);
    [ reflexivity | reflexivity | reflexivity
    | left; discriminate | reflexivity | exact Hout ].
Defined.
